(** * pybambu: the BambuLab aggregator of [src/pybambu/bambulab.py]

    A shallow embedding of the [BambuLab] dataclass and of its coroutines
    [connect], [subscribe] (with its inner [on_message] handler),
    [disconnect] and [get_device], followed by the properties of the
    connection life cycle and of the state-update delivery path.

    The program mutates [self], mutates the [Device] object that
    [self._device] points to, and raises exceptions half-way through a
    method; it is therefore embedded in a state-and-exception monad over a
    [World] in which the effects performed before a [raise] persist. *)

From stdpp Require Import gmap strings list fin_maps pretty.

Open Scope string_scope.
Open Scope list_scope.
Open Scope nat_scope.

(** ** Decoded payloads *)

(** The values found under a field name of a decoded payload. *)
Inductive value :=
  | VNull
  | VBool (b : bool)
  | VInt (n : Z)
  | VStr (s : string).

#[export] Instance value_eq_dec : EqDecision value.
Proof. solve_decision. Defined.

(** [msg.payload] is a byte string of which the program only ever asks one
    thing: what [json.loads] makes of it.  A payload is therefore given by
    that answer: either the mapping it decodes to, or the undecodable raw
    text. *)
Inductive payload :=
  | Json (data : gmap string value)
  | Malformed (raw : string).

(** ** Exceptions and results *)

Inductive exn :=
  | JSONDecodeError (raw : string)    (* json.loads on an undecodable payload *)
  | AttributeError (attr : string)    (* attribute access on None *)
  | OSError (host : string) (port : Z)(* the socket error of paho's connect *).

Inductive result (A : Type) :=
  | Ok (a : A)
  | Raise (e : exn).
Arguments Ok {A} a.
Arguments Raise {A} e.

(** [json.loads]: the decoded mapping, or [JSONDecodeError]. *)
Definition json_loads (p : payload) : result (gmap string value) :=
  match p with
  | Json data => Ok data
  | Malformed raw => Raise (JSONDecodeError raw)
  end.

(** ** The device model

    [from .models import Device]: the class is used through its constructor
    and through [update_from_dict] only, so the aggregator is embedded over
    any type offering the two. *)
Class DeviceModel (D : Type) := {
  Device : gmap string value → D;
  update_from_dict : gmap string value → D → D
}.

(** Modelled from the spec: [models.py], which declares [Device], is not
    among the sources.  The spec describes the Device State as a mutable
    aggregate keyed by field name, initialised from the full first payload,
    into which later payloads are merged field by field: new fields are
    added, existing fields overwritten, fields absent from an update left
    untouched. *)
Definition spec_Device (data : gmap string value) : gmap string value := data.

(** Modelled from the spec: [Device.update_from_dict] of the missing
    [models.py], the field-by-field merge in which the update wins. *)
Definition spec_update_from_dict (data dev : gmap string value)
  : gmap string value := data ∪ dev.

#[export] Instance spec_device_model : DeviceModel (gmap string value) :=
  {| Device := spec_Device; update_from_dict := spec_update_from_dict |}.

(** ** What the program does to the outside: log lines and transport calls *)

Inductive event :=
  | EvLog (line : string)                 (* LOGGER.debug *)
  | EvLogObj (line : string) (l : nat)    (* a line showing an object's __dict__ *)
  | EvDecode (p : payload)                (* json.loads(msg.payload) *)
  | EvNewClient                           (* mqtt_client.Client() *)
  | EvConnect (host : string) (port : Z)  (* client.connect(host, port) *)
  | EvLoopStart                           (* client.loop_start() *)
  | EvLoopStop                            (* client.loop_stop() *)
  | EvDisconnect                          (* client.disconnect() *)
  | EvSubscribe (topic : string)          (* client.subscribe(topic) *)
  | EvSleep (d : nat)                     (* asyncio.sleep(d) *).

(** ** The monad: state, and exceptions that keep the state

    A Python method that raises leaves behind every assignment it made
    before: the state comes back with the exception. *)

Definition M (S A : Type) := S → result A * S.

Definition ret {S A} (a : A) : M S A := λ w, (Ok a, w).
Definition raise {S A} (e : exn) : M S A := λ w, (Raise e, w).
Definition bind {S A B} (m : M S A) (k : A → M S B) : M S B :=
  λ w, match m w with
       | (Ok a, w') => k a w'
       | (Raise e, w') => (Raise e, w')
       end.
Definition modify {S} (f : S → S) : M S unit := λ w, (Ok tt, f w).
Definition read {S A} (f : S → A) : M S A := λ w, (Ok (f w), w).
Definition lift {S A} (r : result A) : M S A := λ w, (r, w).

Notation "'let*' x ':=' m 'in' k" := (bind m (λ x, k))
  (at level 10, x name, m at level 100, k at level 200).
Notation "m >> k" := (bind m (λ _, k))
  (at level 100, k at level 200, right associativity).

(** Objects of class [Device] live in a store and are handed around by
    reference: [self._device], the argument of the caller's callback and the
    local [device] of [get_device] all name the same object. *)
Definition loc := nat.

Section Aggregator.
Context {D : Type} `{!DeviceModel D}.
(** The state the caller's callback works on. *)
Context {U : Type}.

(** The callbacks [subscribe] is called with: a function of the caller,
    which is given the reference to the device and may log and change the
    caller's own state, or [new_update], the closure of [get_device]. *)
Inductive Callback :=
  | Fn (f : loc → U → list event * U)
  | new_update.

(** The paho client, as far as the aggregator touches it. *)
Record Client := mkClient {
  cl_on_connect : bool;               (* is self.on_connect installed *)
  cl_on_message : option Callback;    (* the on_message closure, by its callback *)
  cl_connected : bool;
  cl_loop : bool;                     (* is the delivery thread running *)
  cl_suppress_exceptions : bool;
  cl_subscriptions : list string;
  cl_awaits_connack : bool            (* connected, CONNACK not yet handled *)
}.

(** [@dataclass class BambuLab]. *)
Record BambuLab := mkBambuLab {
  host : string;
  _client : option Client;
  _close_session : bool;
  _device : option loc
}.

(** [BambuLab(host)]: the fields with their defaults. *)
Definition new_BambuLab (h : string) : BambuLab :=
  {| host := h; _client := None; _close_session := false; _device := None |}.

Record World := mkWorld {
  self : BambuLab;
  heap : gmap loc D;              (* the Device objects *)
  user : U;
  device : option loc;            (* the local of get_device that new_update assigns *)
  now : nat;
  trace : list event;
  (* the environment *)
  reachable : bool;               (* does the broker accept on host:1883 *)
  connack : Z;                    (* the return code of its CONNACK *)
  inbox : list (nat * payload);   (* what it publishes under device/, and when *)
  (* the clients [self._client] referred to before [connect] rebound it:
     nothing stops them, so each goes on as it was *)
  orphans : list Client
}.

Definition set_self (f : BambuLab → BambuLab) (w : World) : World :=
  mkWorld (f (self w)) (heap w) (user w) (device w) (now w) (trace w)
          (reachable w) (connack w) (inbox w) (orphans w).
Definition set_heap (f : gmap loc D → gmap loc D) (w : World) : World :=
  mkWorld (self w) (f (heap w)) (user w) (device w) (now w) (trace w)
          (reachable w) (connack w) (inbox w) (orphans w).
Definition set_user (u : U) (w : World) : World :=
  mkWorld (self w) (heap w) u (device w) (now w) (trace w)
          (reachable w) (connack w) (inbox w) (orphans w).
Definition set_local (d : option loc) (w : World) : World :=
  mkWorld (self w) (heap w) (user w) d (now w) (trace w)
          (reachable w) (connack w) (inbox w) (orphans w).
Definition add_trace (evs : list event) (w : World) : World :=
  mkWorld (self w) (heap w) (user w) (device w) (now w) (trace w ++ evs)
          (reachable w) (connack w) (inbox w) (orphans w).
Definition set_clock (t : nat) (rest : list (nat * payload)) (w : World) : World :=
  mkWorld (self w) (heap w) (user w) (device w) t (trace w)
          (reachable w) (connack w) rest (orphans w).

Definition set_orphans (cs : list Client) (w : World) : World :=
  mkWorld (self w) (heap w) (user w) (device w) (now w) (trace w)
          (reachable w) (connack w) (inbox w) cs.

(** [self._client = c]: the field is rebound; the client it referred to,
    if any, is not stopped and goes on as an orphan. *)
Definition rebind_client (c : Client) (w : World) : World :=
  mkWorld (mkBambuLab (host (self w)) (Some c) (_close_session (self w))
                      (_device (self w)))
          (heap w) (user w) (device w) (now w) (trace w)
          (reachable w) (connack w) (inbox w)
          (match _client (self w) with
           | Some old => old :: orphans w
           | None => orphans w
           end).

Definition with_client (c : option Client) (b : BambuLab) : BambuLab :=
  mkBambuLab (host b) c (_close_session b) (_device b).
Definition with_device (d : option loc) (b : BambuLab) : BambuLab :=
  mkBambuLab (host b) (_client b) (_close_session b) d.

(** The object [self._device] points to, if any. *)
Definition device_state (w : World) : option D :=
  match _device (self w) with
  | Some l => heap w !! l
  | None => None
  end.

Definition emit (evs : list event) : M World unit :=
  λ w, (Ok tt, add_trace evs w).
Definition debug (line : string) : M World unit := emit [EvLog line].

(** *** The transport, as the aggregator drives it *)

(** [mqtt_client.Client()]. *)
Definition Client_new : M World Client :=
  emit [EvNewClient] >>
  ret {| cl_on_connect := false; cl_on_message := None; cl_connected := false;
         cl_loop := false; cl_suppress_exceptions := false;
         cl_subscriptions := []; cl_awaits_connack := false |}.

(** An access [self._client.attr] that changes the client: on [None] it is
    an [AttributeError]. *)
Definition on_client (attr : string) (f : Client → Client) : M World unit :=
  let* c := read (λ w, _client (self w)) in
  match c with
  | None => raise (AttributeError attr)
  | Some c => modify (set_self (with_client (Some (f c))))
  end.

Definition upd_on_connect (c : Client) : Client :=
  mkClient true (cl_on_message c) (cl_connected c) (cl_loop c)
           (cl_suppress_exceptions c) (cl_subscriptions c)
           (cl_awaits_connack c).
Definition upd_on_message (cb : Callback) (c : Client) : Client :=
  mkClient (cl_on_connect c) (Some cb) (cl_connected c) (cl_loop c)
           (cl_suppress_exceptions c) (cl_subscriptions c)
           (cl_awaits_connack c).
Definition upd_connected (b : bool) (c : Client) : Client :=
  mkClient (cl_on_connect c) (cl_on_message c) b (cl_loop c)
           (cl_suppress_exceptions c) (cl_subscriptions c)
           (cl_awaits_connack c).
Definition upd_loop (b : bool) (c : Client) : Client :=
  mkClient (cl_on_connect c) (cl_on_message c) (cl_connected c) b
           (cl_suppress_exceptions c) (cl_subscriptions c)
           (cl_awaits_connack c).
Definition upd_subscribe (topic : string) (c : Client) : Client :=
  mkClient (cl_on_connect c) (cl_on_message c) (cl_connected c) (cl_loop c)
           (cl_suppress_exceptions c) (cl_subscriptions c ++ [topic])
           (cl_awaits_connack c).

(** [def on_connect(self, client, userdata, flags, rc)]: diagnostics only. *)
Definition on_connect (rc : Z) : list event :=
  EvLog ("Connected with result code " +:+ pretty rc) ::
  (if bool_decide (rc = 0%Z)
   then [EvLog "Connected to MQTT Broker!"]
   else [EvLog ("Failed to connect, return code " +:+ pretty rc
                 +:+ String (Ascii.ascii_of_nat 10) "")]).

Definition upd_awaits_connack (b : bool) (c : Client) : Client :=
  mkClient (cl_on_connect c) (cl_on_message c) (cl_connected c) (cl_loop c)
           (cl_suppress_exceptions c) (cl_subscriptions c) b.

(** [self._client.connect(host, port)]: a socket error when the broker is
    not reachable; otherwise the connection is open and the broker's
    CONNACK is still to come. *)
Definition client_connect (h : string) (port : Z) : M World unit :=
  emit [EvConnect h port] >>
  let* up := read reachable in
  if up : bool
  then on_client "connect" (λ c, upd_awaits_connack true (upd_connected true c))
  else raise (OSError h port).

(** [self._client.loop_start()]: the delivery thread starts.  It calls
    nothing yet: what it does, it does while the caller is suspended. *)
Definition client_loop_start : M World unit :=
  emit [EvLoopStart] >> on_client "loop_start" (upd_loop true).

Definition client_loop_stop : M World unit :=
  emit [EvLoopStop] >> on_client "loop_stop" (upd_loop false).

Definition client_disconnect : M World unit :=
  emit [EvDisconnect] >> on_client "disconnect" (upd_connected false).

Definition client_subscribe (topic : string) : M World unit :=
  emit [EvSubscribe topic] >> on_client "subscribe" (upd_subscribe topic).

(** *** The coroutines of [BambuLab] *)

(** [async def connect(self)]. *)
Definition connect : M World Client :=
  let* h := read (λ w, host (self w)) in
  debug ("Connecting MQTT Server on: " +:+ h) >>
  let* c := Client_new in
  modify (rebind_client c) >>
  on_client "on_connect" upd_on_connect >>
  client_connect h 1883 >>
  client_loop_start >>
  let* c := read (λ w, _client (self w)) in
  match c with
  | Some c => ret c
  | None => raise (AttributeError "_client")
  end.

(** [json.loads(msg.payload)]. *)
Definition loads (msg : payload) : M World (gmap string value) :=
  emit [EvDecode msg] >> lift (json_loads msg).

(** A new object in the store. *)
Definition alloc (d : D) : M World loc :=
  λ w, let l := fresh (dom (heap w)) in (Ok l, set_heap (<[l := d]>) w).

(** [callback(self._device)].  For [new_update]:
    [LOGGER.debug(f"new update {cb.__dict__}"); device = cb]. *)
Definition call (callback : Callback) (l : loc) : M World unit :=
  match callback with
  | Fn f => λ w, let r := f l (user w) in
                 (Ok tt, set_user (r.2) (add_trace (r.1) w))
  | new_update => emit [EvLogObj "new update " l] >> modify (set_local (Some l))
  end.

(** [def on_message(client, userdata, msg)], the closure [subscribe]
    installs. *)
Definition on_message (callback : Callback) (msg : payload) : M World unit :=
  debug "Subscribe received message" >>
  let* dev := read (λ w, _device (self w)) in
  match dev with
  | None =>
      let* data := loads msg in
      let* l := alloc (Device data) in
      modify (set_self (with_device (Some l)))
  | Some _ => ret tt
  end >>
  let* dev := read (λ w, _device (self w)) in
  match dev with
  | None => raise (AttributeError "update_from_dict")
  | Some l =>
      let* data := loads msg in
      modify (set_heap (alter (update_from_dict data) l)) >>
      debug "Device Update" >>
      call callback l
  end.

(** [async def subscribe(self, callback)]. *)
Definition subscribe (callback : Callback) : M World unit :=
  debug "Subscribing " >>
  on_client "on_message" (upd_on_message callback) >>
  client_subscribe "device/#" >>
  ret tt.

(** [async def disconnect(self)]. *)
Definition disconnect : M World unit :=
  let* c := read (λ w, _client (self w)) in
  match c with
  | None =>
      debug "Cannot disconnect from MQTT Server, as no client connection exists" >>
      ret tt
  | Some _ =>
      debug "Disconnecting...." >>
      client_loop_stop >>
      client_disconnect >>
      debug "Disconnected" >>
      ret tt
  end.

(** *** Delivery *)

(** The delivery thread hands one inbound message to the installed handler.
    An exception of the handler is swallowed when [suppress_exceptions] is
    set; otherwise it leaves the thread, which ends. *)
Definition deliver (msg : payload) (w : World) : World :=
  match _client (self w) with
  | Some c =>
      if cl_connected c && cl_loop c
         && bool_decide ("device/#" ∈ cl_subscriptions c)
      then match cl_on_message c with
           | Some cb =>
               match on_message cb msg w with
               | (Ok _, w') => w'
               | (Raise _, w') =>
                   if cl_suppress_exceptions c then w'
                   else set_self (with_client (Some (upd_loop false c))) w'
               end
           | None => w
           end
      else w
  | None => w
  end.

Definition deliver_all (msgs : list payload) (w : World) : World :=
  foldl (λ w msg, deliver msg w) w msgs.

(** The delivery thread of a client handles the broker's CONNACK: it calls
    the installed [on_connect] with the return code, and a session the
    broker refuses is closed. *)
Definition settle (rc : Z) (c : Client) : Client * list event :=
  if cl_connected c && cl_loop c && cl_awaits_connack c
  then (upd_awaits_connack false (upd_connected (bool_decide (rc = 0%Z)) c),
        if cl_on_connect c then on_connect rc else [])
  else (c, []).

(** Every client with a delivery thread does so, the orphans included. *)
Definition settle_all (w : World) : World :=
  let rs := settle (connack w) <$> orphans w in
  let w1 := add_trace (concat (rs.*2)) (set_orphans (rs.*1) w) in
  match _client (self w1) with
  | Some c =>
      add_trace (settle (connack w) c).2
        (set_self (with_client (Some (settle (connack w) c).1)) w1)
  | None => w1
  end.

(** The delivery thread of an orphan hands a message to the handler that
    was installed on it, as [deliver] does for the client of the
    aggregator: the closure still writes [self._device]. *)
Definition serve (c : Client) (msg : payload) (w : World) : Client * World :=
  if cl_connected c && cl_loop c
     && bool_decide ("device/#" ∈ cl_subscriptions c)
  then match cl_on_message c with
       | Some cb =>
           match on_message cb msg w with
           | (Ok _, w') => (c, w')
           | (Raise _, w') =>
               (if cl_suppress_exceptions c then c else upd_loop false c, w')
           end
       | None => (c, w)
       end
  else (c, w).

Fixpoint serve_each (cs : list Client) (msg : payload) (w : World)
  : list Client * World :=
  match cs with
  | [] => ([], w)
  | c :: cs =>
      let r := serve c msg w in
      let rs := serve_each cs msg r.2 in
      (r.1 :: rs.1, rs.2)
  end.

(** A message of the broker arrives: every client that is connected and
    subscribed gets it, the orphans and then the client of the aggregator
    (one of the orders in which their threads may run). *)
Definition arrive (msg : payload) (w : World) : World :=
  let r := serve_each (orphans w) msg w in
  deliver msg (set_orphans r.1 r.2).

Definition arrive_all (msgs : list payload) (w : World) : World :=
  foldl (λ w msg, arrive msg w) w msgs.

(** [await asyncio.sleep(d)]: the caller is suspended for [d] time units,
    during which the delivery threads handle the CONNACK and then the
    messages that arrive, in arrival order. *)
Definition sleep (d : nat) : M World unit :=
  emit [EvSleep d] >>
  λ w, let due := filter (λ m, m.1 < now w + d) (inbox w) in
       let rest := filter (λ m, ¬ m.1 < now w + d) (inbox w) in
       (Ok tt, set_clock (now w + d) rest
                 (arrive_all (due.*2) (settle_all w))).

(** [asyncio.create_task(coro)]: the coroutine runs on its own as soon as
    the caller suspends, and its exception, if any, stays in the task. *)
Definition create_task {A} (coro : M World A) : M World unit :=
  λ w, (Ok tt, (coro w).2).

(** [async def get_device(self)]. *)
Definition get_device : M World (option loc) :=
  modify (set_local None) >>
  connect >>
  create_task (subscribe new_update) >>
  sleep 5 >>
  disconnect >>
  read device.

(** [async def __aenter__(self)]. *)
Definition __aenter__ : M World BambuLab := read self.

(** [async def __aexit__(self, *_exc_info)]. *)
Definition __aexit__ : M World unit := disconnect.

(** *** Vocabulary of the properties *)

(** The callback a message that arrives now would reach: the one behind the
    handler of a connected client with a running delivery thread and the
    topic subscription. *)
Definition handler (w : World) : option Callback :=
  match _client (self w) with
  | Some c =>
      if cl_connected c && cl_loop c
         && bool_decide ("device/#" ∈ cl_subscriptions c)
      then cl_on_message c else None
  | None => None
  end.

(** Is a delivery thread of the aggregator's client running. *)
Definition loop_running (w : World) : bool :=
  match _client (self w) with
  | Some c => cl_loop c
  | None => false
  end.

(** Is any delivery thread running, that of the aggregator's client or
    that of an orphan. *)
Definition threads_running (w : World) : bool :=
  loop_running w || existsb cl_loop (orphans w).

(** [self._device], when set, points to an object of the store. *)
Definition wf (w : World) : Prop :=
  match _device (self w) with
  | Some l => is_Some (heap w !! l)
  | None => True
  end.

(** What is the same before and after a message is handled: the three
    other fields of [self], the clock and the environment. *)
Definition same_session (w w' : World) : Prop :=
  host (self w') = host (self w) ∧ _client (self w') = _client (self w) ∧
  _close_session (self w') = _close_session (self w) ∧
  now w' = now w ∧ reachable w' = reachable w ∧ connack w' = connack w ∧
  inbox w' = inbox w.

(** What is the same when the device is left alone: the reference in
    [self._device], the store and the local of [get_device]. *)
Definition same_device (w w' : World) : Prop :=
  _device (self w') = _device (self w) ∧ heap w' = heap w ∧
  device w' = device w.

(** The client [connect] leaves in [self._client] when the broker accepts,
    and the one it leaves there when [client.connect] raises. *)
Definition connected_client : Client :=
  {| cl_on_connect := true; cl_on_message := None; cl_connected := true;
     cl_loop := true; cl_suppress_exceptions := false;
     cl_subscriptions := []; cl_awaits_connack := true |}.
Definition unconnected_client : Client :=
  {| cl_on_connect := true; cl_on_message := None; cl_connected := false;
     cl_loop := false; cl_suppress_exceptions := false;
     cl_subscriptions := []; cl_awaits_connack := false |}.

(** What a decoded payload makes of a device state, absent or present. *)
Definition merge_payload (st : option D) (data : gmap string value) : D :=
  match st with
  | None => update_from_dict data (Device data)
  | Some d => update_from_dict data d
  end.

Definition merge_payloads (st : option D) (ps : list (gmap string value))
  : option D :=
  foldl (λ st data, Some (merge_payload st data)) st ps.

(** The payloads at the head of a list that decode. *)
Fixpoint decodable_prefix (msgs : list payload) : list (gmap string value) :=
  match msgs with
  | Json data :: msgs => data :: decodable_prefix msgs
  | _ => []
  end.

(** The messages [get_device] is sent while it waits. *)
Definition due (d : nat) (w : World) : list payload :=
  (filter (λ m, m.1 < now w + d) (inbox w)).*2.

(** The world in which [get_device] starts to wait: connected, with the
    subscription of [new_update] in place. *)
Definition awaiting (w : World) : World :=
  settle_all
    (add_trace [EvSleep 5]
       (create_task (subscribe new_update) (connect (set_local None w)).2).2).

(** The reference the handler hands to the callback on the next decodable
    message: the one in [self._device], or that of the object it is about
    to create. *)
Definition device_ref (w : World) : loc :=
  match _device (self w) with
  | Some l => l
  | None => fresh (dom (heap w))
  end.

(** What no operation changes: the host and the close-session flag; the
    reference in [self._device] once it is set; the location of the device
    object, present or to come; and the objects at every other location. *)
Definition frame (w w' : World) : Prop :=
  host (self w') = host (self w) ∧
  _close_session (self w') = _close_session (self w) ∧
  (∀ l, _device (self w) = Some l → _device (self w') = Some l) ∧
  device_ref w' = device_ref w ∧
  (∀ l, l ≠ device_ref w → heap w' !! l = heap w !! l).

Definition keeps_wf (w w' : World) : Prop := wf w → wf w'.

(** The operations on an aggregator, and the world each leaves behind. *)
Inductive op :=
  | OpConnect
  | OpSubscribe (cb : Callback)
  | OpDisconnect
  | OpGetDevice
  | OpEnter
  | OpExit
  | OpOnMessage (cb : Callback) (msg : payload)
  | OpDeliver (msg : payload)
  | OpSleep (d : nat).

Definition exec (o : op) (w : World) : World :=
  match o with
  | OpConnect => (connect w).2
  | OpSubscribe cb => (subscribe cb w).2
  | OpDisconnect => (disconnect w).2
  | OpGetDevice => (get_device w).2
  | OpEnter => (__aenter__ w).2
  | OpExit => (__aexit__ w).2
  | OpOnMessage cb msg => (on_message cb msg w).2
  | OpDeliver msg => deliver msg w
  | OpSleep d => (sleep d w).2
  end.

End Aggregator.

Arguments Callback : clear implicits.
Arguments Client : clear implicits.
Arguments BambuLab : clear implicits.
Arguments World : clear implicits.
Arguments op : clear implicits.

(** ** Sample worlds *)

(** A device model that only counts how often it was updated. *)
Definition count_Device (_ : gmap string value) : nat := 0.
Definition count_update (_ : gmap string value) (n : nat) : nat := S n.
Definition count_model : DeviceModel nat :=
  {| Device := count_Device; update_from_dict := count_update |}.

(** A new aggregator for ["printer"], whose broker is up or not, with the
    messages [msgs] on their way. *)
Definition fresh_world {D : Type} (up : bool) (msgs : list (nat * payload))
  : World D unit :=
  {| self := new_BambuLab "printer"; heap := ∅; user := tt; device := None;
     now := 0; trace := []; reachable := up; connack := 0%Z; inbox := msgs;
     orphans := [] |}.

(** A caller's callback that does nothing. *)
Definition ignore : Callback unit := Fn (λ _ u, ([], u)).

(** A new aggregator whose broker is down. *)
Definition down_world : World (gmap string value) unit := fresh_world false [].

(** A new aggregator, connected and subscribed with [ignore]. *)
Definition listening_world : World (gmap string value) unit :=
  (subscribe ignore (connect (fresh_world true [])).2).2.

(** A new aggregator whose broker publishes one message at time 1, and one
    whose broker publishes its first message at time 9. *)
Definition one_message_world : World (gmap string value) unit :=
  fresh_world true [(1, Json {[ "temp" := VInt 20 ]})].
Definition quiet_world : World (gmap string value) unit :=
  fresh_world true [(9, Json {[ "temp" := VInt 20 ]})].



(** The value [v] is the last one written under [k] by the payloads [ps]:
    some payload gives [k] the value [v] and no later payload mentions [k]. *)
Definition last_write (ps : list (gmap string value)) (k : string) (v : value)
  : Prop :=
  ∃ i p, ps !! i = Some p ∧ p !! k = Some v ∧
         ∀ j q, i < j → ps !! j = Some q → q !! k = None.

(** The payloads of the spec's example. *)
Definition temp20 : gmap string value := {[ "temp" := VInt 20 ]}.
Definition fan_on : gmap string value := {[ "fan" := VStr "on" ]}.
Definition temp25 : gmap string value := {[ "temp" := VInt 25 ]}.

(** * Properties *)

(** Unfolds the coroutines and the monad on a world given by its fields. *)
Ltac run :=
  cbv [on_message connect subscribe disconnect get_device __aenter__ __aexit__
       Client_new on_client client_connect client_loop_start client_loop_stop
       client_disconnect client_subscribe loads alloc call
       bind ret raise read modify lift emit debug json_loads
       set_self set_heap set_user set_local add_trace set_clock
       set_orphans rebind_client
       with_client with_device device_state handler loop_running wf
       upd_on_connect upd_on_message upd_connected upd_loop upd_subscribe
       upd_awaits_connack
       self heap user device now trace reachable connack inbox orphans
       host _client _close_session _device
       cl_on_connect cl_on_message cl_connected cl_loop
       cl_suppress_exceptions cl_subscriptions cl_awaits_connack
       fst snd].

Ltac open_world w :=
  let h := fresh "h" in let c := fresh "c" in let cs := fresh "cs" in
  let dv := fresh "dv" in
  destruct w as [[h c cs dv] ? ? ? ? ? ? ? ? ?].

Section Properties.
Context {D : Type} `{!DeviceModel D} {U : Type}.
Implicit Types (w : World D U) (cb : Callback U) (data : gmap string value).
Implicit Types (msg : payload) (d : D) (l : loc).

(** ** The handler *)

Lemma on_message_malformed cb raw w :
  on_message cb (Malformed raw) w =
  (Raise (JSONDecodeError raw),
   add_trace [EvLog "Subscribe received message"; EvDecode (Malformed raw)] w).
Proof.
  open_world w; destruct dv; run; by rewrite <- app_assoc.
Qed.

Lemma call_spec cb l w :
  ∃ w', call cb l w = (Ok tt, w') ∧ self w' = self w ∧ heap w' = heap w ∧
        now w' = now w ∧ reachable w' = reachable w ∧
        connack w' = connack w ∧ inbox w' = inbox w ∧
        device w' = match cb with new_update => Some l | Fn _ => device w end ∧
        trace w' = trace w ++ match cb with
                              | Fn f => (f l (user w)).1
                              | new_update => [EvLogObj "new update " l]
                              end.
Proof.
  open_world w; destruct cb; run; eexists; split; try reflexivity; done.
Qed.

Lemma on_message_absent cb data w :
  _device (self w) = None →
  on_message cb (Json data) w =
  call cb (fresh (dom (heap w)))
    (add_trace [EvLog "Subscribe received message"; EvDecode (Json data);
                EvDecode (Json data); EvLog "Device Update"]
       (set_heap (<[fresh (dom (heap w)) := merge_payload None data]>)
          (set_self (with_device (Some (fresh (dom (heap w))))) w))).
Proof.
  open_world w; destruct dv; [done|]; intros _.
  destruct cb; run; cbn; rewrite alter_insert_eq, <- !app_assoc; done.
Qed.

Lemma on_message_present cb data w l :
  _device (self w) = Some l →
  on_message cb (Json data) w =
  call cb l
    (add_trace [EvLog "Subscribe received message"; EvDecode (Json data);
                EvLog "Device Update"]
       (set_heap (alter (update_from_dict data) l) w)).
Proof.
  open_world w; cbn; intros ->.
  destruct cb; run; cbn; rewrite <- !app_assoc; done.
Qed.

(** Handling a decodable payload: the handler returns, [self._device] is
    set, its object holds the merge, and the session is as before. *)
Lemma on_message_json cb data w :
  wf w →
  ∃ w' l, on_message cb (Json data) w = (Ok tt, w') ∧
          _device (self w') = Some l ∧
          (_device (self w) = None ∨ _device (self w) = Some l) ∧
          heap w' !! l = Some (merge_payload (device_state w) data) ∧
          device w' = match cb with new_update => Some l | Fn _ => device w end ∧
          same_session w w'.
Proof.
  intros Hwf. destruct (_device (self w)) as [l|] eqn:Hd.
  - rewrite (on_message_present _ _ _ l Hd).
    edestruct (call_spec cb l) as (w' & -> & Hs & Hh & ? & ? & ? & ? & Hl & _).
    exists w', l. rewrite Hs, Hh. unfold wf in Hwf. rewrite Hd in Hwf.
    destruct Hwf as [d Hw].
    split; [done|]. split; [by open_world w|]. split; [by right|].
    split.
    { unfold device_state. rewrite Hd, Hw. open_world w; cbn in *.
      by rewrite lookup_alter_eq, Hw. }
    split; [by rewrite Hl; destruct cb; open_world w|].
    unfold same_session. rewrite Hs. by open_world w.
  - rewrite (on_message_absent _ _ _ Hd).
    edestruct (call_spec cb (fresh (dom (heap w))))
      as (w' & -> & Hs & Hh & ? & ? & ? & ? & Hl & _).
    exists w', (fresh (dom (heap w))). rewrite Hs, Hh.
    split; [done|]. split; [by open_world w|]. split; [by left|].
    split.
    { unfold device_state. rewrite Hd. open_world w; cbn.
      by rewrite lookup_insert_eq. }
    split; [by rewrite Hl; destruct cb; open_world w|].
    unfold same_session. rewrite Hs. by open_world w.
Qed.

(** ** connect, subscribe, disconnect on a world given by its fields *)

Lemma connect_reachable w :
  reachable w = true →
  connect w =
  (Ok connected_client,
   add_trace [EvLog ("Connecting MQTT Server on: " +:+ host (self w));
              EvNewClient; EvConnect (host (self w)) 1883; EvLoopStart]
             (rebind_client connected_client w)).
Proof.
  open_world w; cbn; intros ->. run.
  by rewrite <- !app_assoc.
Qed.

Lemma connect_unreachable w :
  reachable w = false →
  connect w =
  (Raise (OSError (host (self w)) 1883),
   add_trace [EvLog ("Connecting MQTT Server on: " +:+ host (self w));
              EvNewClient; EvConnect (host (self w)) 1883]
             (rebind_client unconnected_client w)).
Proof.
  open_world w; cbn; intros ->. run.
  by rewrite <- !app_assoc.
Qed.

Lemma subscribe_client cb w c :
  _client (self w) = Some c →
  subscribe cb w =
  (Ok tt,
   add_trace [EvLog "Subscribing "; EvSubscribe "device/#"]
     (set_self (with_client
        (Some (upd_subscribe "device/#" (upd_on_message cb c)))) w)).
Proof.
  open_world w; cbn; intros ->. destruct c. run.
  by rewrite <- !app_assoc.
Qed.

Lemma subscribe_no_client cb w :
  _client (self w) = None →
  subscribe cb w =
  (Raise (AttributeError "on_message"), add_trace [EvLog "Subscribing "] w).
Proof. open_world w; cbn; intros ->. by run. Qed.

Lemma disconnect_client w c :
  _client (self w) = Some c →
  disconnect w =
  (Ok tt,
   add_trace [EvLog "Disconnecting...."; EvLoopStop; EvDisconnect;
              EvLog "Disconnected"]
     (set_self (with_client
        (Some (upd_connected false (upd_loop false c)))) w)).
Proof.
  open_world w; cbn; intros ->. destruct c. run.
  by rewrite <- !app_assoc.
Qed.

Lemma disconnect_no_client w :
  _client (self w) = None →
  disconnect w =
  (Ok tt,
   add_trace
     [EvLog "Cannot disconnect from MQTT Server, as no client connection exists"]
     w).
Proof. open_world w; cbn; intros ->. by run. Qed.

(** ** Delivery *)

Lemma handler_same_session w w' :
  same_session w w' → handler w' = handler w.
Proof. intros (_ & Hc & _). unfold handler. by rewrite Hc. Qed.

Lemma same_session_trans w1 w2 w3 :
  same_session w1 w2 → same_session w2 w3 → same_session w1 w3.
Proof. unfold same_session. intuition congruence. Qed.

Lemma deliver_no_handler msg w : handler w = None → deliver msg w = w.
Proof.
  unfold handler, deliver. destruct (_client (self w)) as [c|]; [|done].
  destruct (_ && _); [|done]. by intros ->.
Qed.

Lemma deliver_all_no_handler msgs w :
  handler w = None → deliver_all msgs w = w.
Proof.
  intros Hh. induction msgs as [|msg msgs IH]; [done|].
  unfold deliver_all in *. cbn. by rewrite deliver_no_handler.
Qed.

Lemma deliver_handler cb msg w :
  handler w = Some cb →
  ∃ c, _client (self w) = Some c ∧
       deliver msg w =
       match on_message cb msg w with
       | (Ok _, w') => w'
       | (Raise _, w') =>
           if cl_suppress_exceptions c then w'
           else set_self (with_client (Some (upd_loop false c))) w'
       end.
Proof.
  unfold handler, deliver. destruct (_client (self w)) as [c|]; [|done].
  destruct (_ && _); [|done]. intros ->. by exists c.
Qed.

(** A decodable payload that reaches the handler is merged. *)
Lemma deliver_json cb data w :
  handler w = Some cb → wf w →
  ∃ l, let w' := deliver (Json data) w in
       _device (self w') = Some l ∧
       (_device (self w) = None ∨ _device (self w) = Some l) ∧
       heap w' !! l = Some (merge_payload (device_state w) data) ∧
       device w' = match cb with new_update => Some l | Fn _ => device w end ∧
       same_session w w'.
Proof.
  intros Hh Hwf.
  destruct (deliver_handler _ (Json data) _ Hh) as (c & _ & ->).
  destruct (on_message_json cb data w Hwf) as (w' & l & -> & ?).
  by exists l.
Qed.

Lemma deliver_all_app msgs1 msgs2 w :
  deliver_all (msgs1 ++ msgs2) w = deliver_all msgs2 (deliver_all msgs1 w).
Proof. apply foldl_app. Qed.

Lemma deliver_all_json cb ps w :
  handler w = Some cb → wf w →
  let w' := deliver_all (Json <$> ps) w in
  handler w' = Some cb ∧ wf w' ∧ same_session w w' ∧
  device_state w' = merge_payloads (device_state w) ps ∧
  (ps ≠ [] →
   ∃ l, _device (self w') = Some l ∧
        (_device (self w) = None ∨ _device (self w) = Some l) ∧
        device w' = match cb with new_update => Some l | Fn _ => device w end).
Proof.
  revert w. induction ps as [|data ps IH]; intros w Hh Hwf; cbn.
  { repeat split; try done. }
  destruct (deliver_json cb data w Hh Hwf) as (l & Hd & Hor & Hl & Hloc & Hs).
  cbn in *. set (w1 := deliver (Json data) w) in *.
  assert (Hh1 : handler w1 = Some cb) by by rewrite (handler_same_session w).
  assert (Hwf1 : wf w1) by (unfold wf; by rewrite Hd, Hl).
  assert (Hst : device_state w1 = Some (merge_payload (device_state w) data))
    by (unfold device_state at 1; by rewrite Hd).
  destruct (IH w1 Hh1 Hwf1) as (Hh' & Hwf' & Hs' & Hst' & Hne).
  fold (deliver_all (Json <$> ps) w1).
  split; [done|]. split; [done|].
  split; [by eapply same_session_trans|].
  split; [by rewrite Hst', Hst|].
  intros _. destruct ps as [|data' ps].
  - exists l. by cbn.
  - destruct Hne as (l' & Hd' & Hor' & Hloc'); [done|].
    assert (l' = l) as -> by (destruct Hor'; congruence).
    exists l. split; [done|]. split; [done|].
    rewrite Hloc'. destruct cb; [done|done].
Qed.

(** With [suppress_exceptions] off, an undecodable payload ends the
    delivery thread and leaves the device alone. *)
Lemma deliver_malformed cb raw w c :
  handler w = Some cb → _client (self w) = Some c →
  cl_suppress_exceptions c = false →
  let w' := deliver (Malformed raw) w in
  handler w' = None ∧ same_device w w' ∧ now w' = now w ∧ inbox w' = inbox w
  ∧ is_Some (_client (self w')).
Proof.
  intros Hh Hc Hsup.
  destruct (deliver_handler _ (Malformed raw) _ Hh) as (c' & Hc' & Hdel).
  assert (c' = c) as -> by congruence.
  cbn. rewrite Hdel, on_message_malformed, Hsup.
  open_world w. cbn in *. subst. destruct c. run.
  rewrite andb_false_r. done.
Qed.


Lemma disconnect_spec w :
  ∃ w', disconnect w = (Ok tt, w') ∧ same_device w w' ∧ now w' = now w ∧
        inbox w' = inbox w ∧ loop_running w' = false.
Proof.
  destruct (_client (self w)) as [c|] eqn:Hc.
  - rewrite (disconnect_client _ _ Hc). eexists. split; [done|].
    by open_world w.
  - rewrite (disconnect_no_client _ Hc). eexists. split; [done|].
    open_world w. cbn in Hc. subst. done.
Qed.

(** ** The delivery threads while the caller is suspended *)

Lemma settle_all_spec w :
  same_device w (settle_all w) ∧ now (settle_all w) = now w ∧
  inbox (settle_all w) = inbox w.
Proof. open_world w. unfold settle_all. cbn. by destruct c. Qed.

Lemma call_orphans cb l w : orphans (call cb l w).2 = orphans w.
Proof. by destruct cb; open_world w. Qed.

Lemma on_message_orphans cb msg w :
  orphans (on_message cb msg w).2 = orphans w.
Proof.
  destruct msg as [data|raw].
  - destruct (_device (self w)) as [l|] eqn:Hd.
    + rewrite (on_message_present _ _ _ l Hd), call_orphans. by open_world w.
    + rewrite (on_message_absent _ _ _ Hd), call_orphans. by open_world w.
  - rewrite on_message_malformed. by open_world w.
Qed.

Lemma deliver_orphans msg w : orphans (deliver msg w) = orphans w.
Proof.
  destruct (handler w) as [cb|] eqn:Hh.
  - destruct (deliver_handler _ msg _ Hh) as (c & Hc & ->).
    pose proof (on_message_orphans cb msg w) as Ho.
    destruct (on_message cb msg w) as [[?|?] w']; [done|].
    destruct (cl_suppress_exceptions c); [done|]. by open_world w'.
  - by rewrite deliver_no_handler.
Qed.

(** A client without delivery thread is served nothing. *)
Lemma serve_stopped c msg w : cl_loop c = false → serve c msg w = (c, w).
Proof. intros Hc. unfold serve. by rewrite Hc, andb_false_r. Qed.

Lemma serve_each_stopped (cs : list (Client U)) msg w :
  existsb cl_loop cs = false → serve_each cs msg w = (cs, w).
Proof.
  induction cs as [|c cs IH]; [done|]. cbn.
  intros [Hc Hcs]%orb_false_elim.
  rewrite (serve_stopped _ _ _ Hc). cbn. by rewrite (IH Hcs).
Qed.

(** Where no orphan has a delivery thread, what arrives goes to the client
    of the aggregator alone. *)
Lemma arrive_no_orphan msg w :
  existsb cl_loop (orphans w) = false → arrive msg w = deliver msg w.
Proof.
  intros Ho. unfold arrive. rewrite (serve_each_stopped _ _ _ Ho).
  by open_world w.
Qed.

Lemma arrive_all_no_orphan msgs w :
  existsb cl_loop (orphans w) = false → arrive_all msgs w = deliver_all msgs w.
Proof.
  revert w. induction msgs as [|msg msgs IH]; intros w Ho; [done|].
  change (arrive_all (msg :: msgs) w) with (arrive_all msgs (arrive msg w)).
  change (deliver_all (msg :: msgs) w)
    with (deliver_all msgs (deliver msg w)).
  rewrite (arrive_no_orphan _ _ Ho). apply IH. by rewrite deliver_orphans.
Qed.

Lemma settle_stopped rc (cs : list (Client U)) :
  existsb cl_loop cs = false →
  (settle rc <$> cs).*1 = cs ∧ concat ((settle rc <$> cs).*2) = [].
Proof.
  induction cs as [|c cs IH]; [done|]. cbn.
  intros [Hc Hcs]%orb_false_elim. destruct (IH Hcs) as [-> ->].
  unfold settle. by rewrite Hc, andb_false_r.
Qed.

Lemma arrive_all_nil w : arrive_all [] w = w.
Proof. reflexivity. Qed.

Lemma awaiting_spec w :
  reachable w = true →
  same_device (set_local None w) (awaiting w) ∧
  now (awaiting w) = now w ∧ inbox (awaiting w) = inbox w.
Proof.
  intros Hr. unfold awaiting, create_task.
  rewrite connect_reachable by done. cbn [snd].
  erewrite subscribe_client by reflexivity. cbn [snd].
  match goal with |- context [settle_all ?x] =>
    destruct (settle_all_spec x) as ((Hd & Hh & Hl) & Hn & Hi) end.
  unfold same_device. rewrite Hd, Hh, Hl, Hn, Hi. by open_world w.
Qed.

Lemma deliver_all_orphans msgs w : orphans (deliver_all msgs w) = orphans w.
Proof.
  revert w. induction msgs as [|msg msgs IH]; intros w; [done|].
  change (deliver_all (msg :: msgs) w)
    with (deliver_all msgs (deliver msg w)).
  by rewrite IH, deliver_orphans.
Qed.

(** When no delivery thread runs before the call, none of the clients
    [get_device] leaves behind it has one. *)
Lemma awaiting_orphans w :
  reachable w = true → threads_running w = false →
  existsb cl_loop (orphans (awaiting w)) = false.
Proof.
  intros Hr [Hloop Ho]%orb_false_elim. unfold awaiting, create_task.
  rewrite connect_reachable by done. cbn [snd].
  erewrite subscribe_client by reflexivity. cbn [snd].
  open_world w. cbn in *. subst. unfold settle_all. cbn.
  assert (Ho' : existsb cl_loop
            (match c with Some old => old :: orphans0 | None => orphans0 end)
          = false).
  { destruct c as [c|]; [|done]. cbn. unfold loop_running in Hloop.
    cbn in Hloop. by rewrite Hloop. }
  by destruct (settle_stopped connack0 _ Ho') as [-> _].
Qed.

(** When the broker accepts the session, [get_device] waits with
    [new_update] as the handler of its client. *)
Lemma awaiting_alone w :
  reachable w = true → connack w = 0%Z →
  handler (awaiting w) = Some new_update ∧
  (∃ c, _client (self (awaiting w)) = Some c ∧ cl_suppress_exceptions c = false).
Proof.
  intros Hr Hrc. unfold awaiting, create_task.
  rewrite connect_reachable by done. cbn [snd].
  erewrite subscribe_client by reflexivity. cbn [snd].
  open_world w. cbn in *. subst. unfold settle_all. cbn.
  split; [done|]. eexists. split; done.
Qed.

Lemma sleep_unfold (secs : nat) w :
  sleep secs w =
  (Ok tt,
   set_clock (now w + secs) (filter (λ m, ¬ m.1 < now w + secs) (inbox w))
     (arrive_all (due secs w) (settle_all (add_trace [EvSleep secs] w)))).
Proof. by open_world w. Qed.

Lemma due_eq (secs : nat) w w' :
  now w' = now w → inbox w' = inbox w → due secs w' = due secs w.
Proof. unfold due. by intros -> ->. Qed.

Lemma wake_up_spec (t : nat) rest w :
  ∃ w', disconnect (set_clock t rest w) = (Ok tt, w') ∧
        same_device w w' ∧ now w' = t ∧ loop_running w' = false ∧
        orphans w' = orphans w.
Proof.
  destruct (_client (self w)) as [c|] eqn:Hc.
  - rewrite (disconnect_client _ c) by (by open_world w).
    eexists. split; [reflexivity|]. by open_world w.
  - rewrite disconnect_no_client by (by open_world w).
    eexists. split; [reflexivity|]. open_world w. cbn in Hc. by subst.
Qed.

Lemma get_device_unfold w :
  reachable w = true →
  ∃ w', get_device w = (Ok (device w'), w') ∧
        same_device (arrive_all (due 5 w) (awaiting w)) w' ∧
        now w' = now w + 5 ∧ loop_running w' = false ∧
        orphans w' = orphans (arrive_all (due 5 w) (awaiting w)).
Proof.
  intros Hr.
  assert (Hr' : reachable (set_local None w) = true) by by open_world w.
  assert (Hni : now (subscribe new_update (connect (set_local None w)).2).2
                = now w ∧
                inbox (subscribe new_update (connect (set_local None w)).2).2
                = inbox w).
  { rewrite connect_reachable by done. cbn [snd].
    erewrite subscribe_client by reflexivity.
    clear. open_world w. split; reflexivity. }
  destruct Hni as [Hn Hi].
  assert (Hc : connect (set_local None w)
               = (Ok connected_client, (connect (set_local None w)).2))
    by (rewrite connect_reachable by done; reflexivity).
  unfold get_device. cbv [bind modify]. rewrite Hc. clear Hc.
  cbv [create_task]. rewrite sleep_unfold.
  unfold awaiting. cbv [create_task]. cbn [snd].
  remember (subscribe new_update (connect (set_local None w)).2).2
    as w2 eqn:Hw2.
  rewrite (due_eq 5 w w2 Hn Hi), Hn.
  remember (arrive_all (due 5 w) (settle_all (add_trace [EvSleep 5] w2)))
    as w3 eqn:Hw3.
  destruct (wake_up_spec (now w + 5)
              (filter (λ m, ¬ m.1 < now w + 5) (inbox w2)) w3)
    as (w' & -> & Hsd & Hnow & Hl & Ho).
  exists w'. cbv [read]. split; [reflexivity|].
  split; [exact Hsd|]. split; [exact Hnow|]. split; [exact Hl|exact Ho].
Qed.

(** ** What every operation keeps *)

Section Kept.
(** A relation between the world before and the world after, kept by
    whatever leaves the configuration and the device alone and by the
    message handler, is kept by every operation. *)
Variable R : World D U → World D U → Prop.
Hypothesis R_trans : ∀ w1 w2 w3, R w1 w2 → R w2 w3 → R w1 w3.
Hypothesis R_same : ∀ w w',
  host (self w') = host (self w) →
  _close_session (self w') = _close_session (self w) →
  _device (self w') = _device (self w) → heap w' = heap w → R w w'.
Hypothesis R_on_message : ∀ cb msg w, R w (on_message cb msg w).2.

Lemma connect_kept w : R w (connect w).2.
Proof.
  destruct (reachable w) eqn:Hr.
  - rewrite (connect_reachable _ Hr). apply R_same; by open_world w.
  - rewrite (connect_unreachable _ Hr). apply R_same; by open_world w.
Qed.

Lemma subscribe_kept cb w : R w (subscribe cb w).2.
Proof.
  destruct (_client (self w)) as [c|] eqn:Hc.
  - rewrite (subscribe_client _ _ _ Hc). apply R_same; by open_world w.
  - rewrite (subscribe_no_client _ _ Hc). apply R_same; by open_world w.
Qed.

Lemma disconnect_kept w : R w (disconnect w).2.
Proof.
  destruct (_client (self w)) as [c|] eqn:Hc.
  - rewrite (disconnect_client _ _ Hc). apply R_same; by open_world w.
  - rewrite (disconnect_no_client _ Hc). apply R_same; by open_world w.
Qed.

Lemma deliver_kept msg w : R w (deliver msg w).
Proof.
  destruct (handler w) as [cb|] eqn:Hh.
  - destruct (deliver_handler _ msg _ Hh) as (c & Hc & ->).
    pose proof (R_on_message cb msg w) as Hk.
    destruct (on_message cb msg w) as [[?|?] w']; [done|].
    destruct (cl_suppress_exceptions c); [done|].
    apply (R_trans _ w'); [done|]. apply R_same; by open_world w'.
  - rewrite deliver_no_handler by done. by apply R_same.
Qed.

Lemma deliver_all_kept msgs w : R w (deliver_all msgs w).
Proof.
  revert w. induction msgs as [|msg msgs IH]; intros w; [by apply R_same|].
  change (deliver_all (msg :: msgs) w)
    with (deliver_all msgs (deliver msg w)).
  eapply R_trans; [apply deliver_kept|apply IH].
Qed.

Lemma settle_all_kept w : R w (settle_all w).
Proof.
  apply R_same; open_world w; unfold settle_all; cbn; by destruct c.
Qed.

Lemma serve_kept c msg w : R w (serve c msg w).2.
Proof.
  unfold serve. destruct (_ && _); [|by apply R_same].
  destruct (cl_on_message c) as [cb|]; [|by apply R_same].
  pose proof (R_on_message cb msg w) as Hk.
  by destruct (on_message cb msg w) as [[?|?] w'].
Qed.

Lemma serve_each_kept cs msg w : R w (serve_each cs msg w).2.
Proof.
  revert w. induction cs as [|c cs IH]; intros w; [by apply R_same|].
  cbn. eapply R_trans; [apply serve_kept|apply IH].
Qed.

Lemma arrive_kept msg w : R w (arrive msg w).
Proof.
  unfold arrive.
  eapply R_trans; [apply serve_each_kept|].
  eapply R_trans; [|apply deliver_kept].
  apply R_same; reflexivity.
Qed.

Lemma arrive_all_kept msgs w : R w (arrive_all msgs w).
Proof.
  revert w. induction msgs as [|msg msgs IH]; intros w; [by apply R_same|].
  change (arrive_all (msg :: msgs) w) with (arrive_all msgs (arrive msg w)).
  eapply R_trans; [apply arrive_kept|apply IH].
Qed.

Lemma sleep_kept (secs : nat) w : R w (sleep secs w).2.
Proof.
  rewrite sleep_unfold. cbn [snd].
  apply (R_trans _ (add_trace [EvSleep secs] w));
    [apply R_same; by open_world w|].
  eapply R_trans; [apply settle_all_kept|].
  eapply R_trans; [apply arrive_all_kept|].
  apply R_same; reflexivity.
Qed.

Lemma get_device_kept w : R w (get_device w).2.
Proof.
  apply (R_trans _ (set_local None w)); [apply R_same; by open_world w|].
  unfold get_device. cbv [bind modify].
  pose proof (connect_kept (set_local None w)) as Hc.
  destruct (connect (set_local None w)) as [[c|e] w1]; [|done].
  apply (R_trans _ w1); [done|]. cbv [create_task].
  apply (R_trans _ (subscribe new_update w1).2); [apply subscribe_kept|].
  pose proof (sleep_kept 5 (subscribe new_update w1).2) as Hs.
  destruct (sleep 5 (subscribe new_update w1).2) as [[?|?] w2]; [|done].
  apply (R_trans _ w2); [done|].
  pose proof (disconnect_kept w2) as Hd.
  by destruct (disconnect w2) as [[?|?] w3].
Qed.

Lemma exec_kept (o : op U) w : R w (exec o w).
Proof.
  destruct o; cbn [exec].
  - apply connect_kept.
  - apply subscribe_kept.
  - apply disconnect_kept.
  - apply get_device_kept.
  - by apply R_same.
  - apply disconnect_kept.
  - apply R_on_message.
  - apply deliver_kept.
  - apply sleep_kept.
Qed.

End Kept.

(** ** Once set, the device stays *)

Lemma same_device_state w w' :
  same_device w w' → device_state w' = device_state w.
Proof. intros (Hd & Hh & _). unfold device_state. by rewrite Hd, Hh. Qed.

Lemma on_message_keeps cb msg w :
  (is_Some (_device (self w)) → is_Some (_device (self (on_message cb msg w).2)))
  ∧ (is_Some (device_state w) → is_Some (device_state (on_message cb msg w).2)).
Proof.
  destruct msg as [data|raw].
  - destruct (_device (self w)) as [l|] eqn:Hd.
    + rewrite (on_message_present _ _ _ l Hd).
      destruct (call_spec cb l
        (add_trace [EvLog "Subscribe received message"; EvDecode (Json data);
                    EvLog "Device Update"]
           (set_heap (alter (update_from_dict data) l) w)))
        as (w' & -> & Hs & Hh & _).
      unfold device_state. cbn [snd]. rewrite Hs, Hh.
      open_world w. cbn in *. subst. split; [done|].
      rewrite lookup_alter_eq. by intros [d ->].
    + split; [by intros []|]. unfold device_state. rewrite Hd. by intros [].
  - rewrite on_message_malformed. by open_world w.
Qed.

Lemma deliver_keeps msg w :
  (is_Some (_device (self w)) → is_Some (_device (self (deliver msg w))))
  ∧ (is_Some (device_state w) → is_Some (device_state (deliver msg w))).
Proof.
  destruct (handler w) as [cb|] eqn:Hh.
  - destruct (deliver_handler _ msg _ Hh) as (c & Hc & ->).
    pose proof (on_message_keeps cb msg w) as Hk.
    destruct (on_message cb msg w) as [[?|?] w']; [done|].
    destruct (cl_suppress_exceptions c); [done|]. by open_world w'.
  - by rewrite deliver_no_handler.
Qed.

Lemma deliver_all_keeps msgs w :
  (is_Some (_device (self w)) → is_Some (_device (self (deliver_all msgs w))))
  ∧ (is_Some (device_state w) → is_Some (device_state (deliver_all msgs w))).
Proof.
  revert w. induction msgs as [|msg msgs IH]; intros w; [done|].
  change (deliver_all (msg :: msgs) w)
    with (deliver_all msgs (deliver msg w)).
  destruct (IH (deliver msg w)), (deliver_keeps msg w). split; auto.
Qed.

Lemma get_device_unreachable w :
  reachable w = false →
  get_device w = (Raise (OSError (host (self w)) 1883),
                  (connect (set_local None w)).2).
Proof.
  intros Hr. unfold get_device. cbv [bind modify].
  rewrite connect_unreachable by by open_world w. by open_world w.
Qed.


Lemma on_message_json_frame cb data w1 w2 :
  _device (self w1) = _device (self w2) → heap w1 = heap w2 →
  (on_message cb (Json data) w1).1 = Ok tt ∧
  device_state (on_message cb (Json data) w1).2
  = device_state (on_message cb (Json data) w2).2.
Proof.
  intros Hd Hh. destruct (_device (self w2)) as [l|] eqn:Hd2.
  - rewrite (on_message_present _ _ w1 l Hd), (on_message_present _ _ w2 l Hd2).
    do 2 match goal with |- context [call cb l ?x] =>
      destruct (call_spec cb l x) as (? & -> & ? & ? & _) end.
    split; [done|]. unfold device_state. cbn [snd].
    repeat match goal with H : _ = _ |- _ => rewrite H end.
    open_world w1; open_world w2; cbn in *. by subst.
  - rewrite (on_message_absent _ _ w1 Hd), (on_message_absent _ _ w2 Hd2).
    rewrite Hh.
    do 2 match goal with |- context [call cb ?l ?x] =>
      destruct (call_spec cb l x) as (? & -> & ? & ? & _) end.
    split; [done|]. unfold device_state. cbn [snd].
    repeat match goal with H : _ = _ |- _ => rewrite H end.
    open_world w1; open_world w2; cbn in *. by subst.
Qed.

(** * The claims *)

(** C2 (amended): when the broker is not reachable, [connect] does not
    return normally: an error is raised to its caller; the host, the
    close-session flag, the device reference and the device objects are as
    before the call, and [self._client] holds the client that was created
    for the attempt, not connected and without a delivery thread. *)
Theorem connect_unreachable_keeps_new_client w :
  reachable w = false →
  ∃ e w', connect w = (Raise e, w') ∧
        host (self w') = host (self w) ∧
        _close_session (self w') = _close_session (self w) ∧
        same_device w w' ∧
        _client (self w') = Some unconnected_client ∧
        loop_running w' = false.
Proof.
  intros Hr. rewrite (connect_unreachable _ Hr). eexists _, _.
  split; [done|]. by open_world w.
Qed.

(** C3 (amended): on a payload that does not decode, the message handler
    raises the decode error to the delivery loop that called it, having
    logged the receipt only and without calling the callback; the
    aggregator, the device objects and the caller's state are exactly as
    before the message, and a decodable payload handed to the handler
    afterwards is merged as if the undecodable one had not arrived. *)
Theorem malformed_payload_raises_and_keeps_state cb raw w :
  ∃ w', on_message cb (Malformed raw) w = (Raise (JSONDecodeError raw), w') ∧
        self w' = self w ∧ heap w' = heap w ∧ user w' = user w ∧
        device w' = device w ∧
        trace w' = trace w ++ [EvLog "Subscribe received message";
                               EvDecode (Malformed raw)] ∧
        ∀ cb' data,
          (on_message cb' (Json data) w').1 = Ok tt ∧
          device_state (on_message cb' (Json data) w').2
          = device_state (on_message cb' (Json data) w).2.
Proof.
  rewrite on_message_malformed. eexists. split; [done|].
  do 5 (split; [by open_world w|]).
  intros cb' data. apply on_message_json_frame; by open_world w.
Qed.

(** C6: on an aggregator without a client, that is one on which [connect]
    was never called, [disconnect] returns without raising, does nothing
    but log that no client connection exists (no loop is stopped, no
    connection closed), and leaves no delivery thread running. *)
Theorem disconnect_without_connect w :
  _client (self w) = None →
  ∃ w', disconnect w = (Ok tt, w') ∧ self w' = self w ∧ heap w' = heap w ∧
        trace w' = trace w ++
          [EvLog "Cannot disconnect from MQTT Server, as no client connection exists"] ∧
        loop_running w' = false.
Proof.
  intros Hc. rewrite (disconnect_no_client _ Hc). eexists. split; [done|].
  open_world w. cbn in *. by subst.
Qed.


(** C8: on an aggregator whose client is still [None], [subscribe] raises
    the [AttributeError] of the access to [self._client.on_message]; it is
    not a connection error, and nothing is subscribed. *)
Theorem subscribe_without_connect cb w :
  _client (self w) = None →
  ∃ w', subscribe cb w = (Raise (AttributeError "on_message"), w') ∧
        self w' = self w ∧ handler w' = None.
Proof.
  intros Hc. rewrite (subscribe_no_client _ _ Hc). eexists. split; [done|].
  open_world w. cbn in *. by subst.
Qed.

(** C9: [disconnect] resets neither [self._client] (it keeps the client,
    stopped and closed) nor [self._device], and does not touch the device
    objects; so the state accumulated before a disconnect is still there
    after it, and after a reconnect and a new subscription the next payload
    is merged into that state. *)
Theorem disconnect_keeps_device_for_reconnect :
  (∀ w, (disconnect w).1 = Ok tt ∧
        _device (self (disconnect w).2) = _device (self w) ∧
        heap (disconnect w).2 = heap w ∧
        _client (self (disconnect w).2)
        = (λ c, upd_connected false (upd_loop false c)) <$> _client (self w)) ∧
  (∀ w d cb data,
     device_state w = Some d → reachable w = true →
     let w1 := (disconnect w).2 in
     let w3 := (subscribe cb (connect w1).2).2 in
     device_state w1 = Some d ∧
     device_state (deliver (Json data) w3) = Some (update_from_dict data d)).
Proof.
  split.
  - intros w. destruct (_client (self w)) as [c|] eqn:Hc.
    + rewrite (disconnect_client _ _ Hc). by open_world w.
    + rewrite (disconnect_no_client _ Hc). open_world w. cbn in *. by subst.
  - intros w d cb data Hst Hr w1 w3.
    destruct (disconnect_spec w) as (w1' & Heq & Hsd & _).
    assert (w1 = w1') as -> by (unfold w1; by rewrite Heq).
    assert (Hst1 : device_state w1' = Some d)
      by by rewrite (same_device_state _ _ Hsd).
    split; [done|].
    assert (Hr1 : reachable w1' = true).
    { destruct (_client (self w)) as [c|] eqn:Hc.
      - rewrite (disconnect_client _ _ Hc) in Heq. injection Heq as <-.
        by open_world w.
      - rewrite (disconnect_no_client _ Hc) in Heq. injection Heq as <-.
        by open_world w. }
    subst w3. rewrite (connect_reachable _ Hr1). cbn [snd].
    erewrite subscribe_client by reflexivity. cbn [snd].
    match goal with |- context [deliver _ ?x] => set (w3 := x) end.
    assert (Hst3 : device_state w3 = Some d)
      by (rewrite <- Hst1; by open_world w1').
    assert (Hh3 : handler w3 = Some cb) by by open_world w1'.
    assert (Hwf3 : wf w3).
    { unfold wf. unfold device_state in Hst3.
      destruct (_device (self w3)); [by rewrite Hst3|done]. }
    destruct (deliver_json cb data w3 Hh3 Hwf3) as (l & Hd & _ & Hl & _).
    cbv zeta in Hd, Hl. unfold device_state at 1. by rewrite Hd, Hl, Hst3.
Qed.

(** C10: on the first message of a subscription (device state absent) the
    payload is decoded twice and applied twice: the device is constructed
    from the decoded payload and then updated with the same decoded payload,
    so the state the callback sees is the update of the initial device, not
    the initial device. *)
Theorem first_message_decoded_and_applied_twice cb data w :
  _device (self w) = None →
  ∃ w' l, on_message cb (Json data) w = (Ok tt, w') ∧
          _device (self w') = Some l ∧
          heap w' !! l = Some (update_from_dict data (Device data)) ∧
          device_state w' = Some (update_from_dict data (Device data)) ∧
          trace w' = trace w ++
            [EvLog "Subscribe received message"; EvDecode (Json data);
             EvDecode (Json data); EvLog "Device Update"] ++
            match cb with
            | Fn f => (f l (user w)).1
            | new_update => [EvLogObj "new update " l]
            end.
Proof.
  intros Hd. rewrite (on_message_absent _ _ _ Hd).
  match goal with |- context [call cb ?l ?x] =>
    destruct (call_spec cb l x) as (w' & -> & Hs & Hh & _ & _ & _ & _ & _ & Ht) end.
  exists w', (fresh (dom (heap w))). split; [done|].
  unfold device_state. rewrite Hs, Hh, Ht.
  open_world w. cbn. rewrite lookup_insert_eq, <- app_assoc. done.
Qed.

(** ** get_device *)

Lemma due_nil (secs : nat) w :
  (∀ m, m ∈ inbox w → now w + secs ≤ m.1) → due secs w = [].
Proof.
  unfold due. intros Hin. induction (inbox w) as [|m ms IH]; [done|].
  rewrite filter_cons. case_decide as Hlt.
  - specialize (Hin m (list_elem_of_here _ _)). lia.
  - apply IH. intros m' Hm'. apply Hin. by apply list_elem_of_further.
Qed.

(** C4: when the broker is reachable and no message arrives within the
    wait of [get_device], the call returns [None] without raising; when the
    broker is not reachable it raises the error of [connect] instead, which
    is a different outcome. *)
Theorem get_device_without_messages w :
  (∀ m, m ∈ inbox w → now w + 5 ≤ m.1) →
  (reachable w = true → (get_device w).1 = Ok None) ∧
  (reachable w = false →
   (get_device w).1 = Raise (OSError (host (self w)) 1883)).
Proof.
  intros Hin. split; intros Hr.
  - destruct (get_device_unfold w Hr) as (w' & -> & (_ & _ & Hl) & _).
    cbn [fst]. rewrite Hl, (due_nil _ _ Hin), arrive_all_nil.
    destruct (awaiting_spec w Hr) as ((_ & _ & ->) & _).
    by open_world w.
  - by rewrite (get_device_unreachable _ Hr).
Qed.

Lemma decodable_prefix_split (msgs : list payload) :
  ∃ rest, msgs = (Json <$> decodable_prefix msgs) ++ rest ∧
          (rest = [] ∨ ∃ raw r, rest = Malformed raw :: r).
Proof.
  induction msgs as [|[data|raw] msgs (rest & IH & Hrest)].
  - exists []. split; [done|by left].
  - exists rest. cbn. by rewrite <- IH.
  - exists (Malformed raw :: msgs). split; [done|]. right. eauto.
Qed.

(** What a run of deliveries makes of the device when undecodable payloads
    end the delivery thread: the merge of the payloads before the first
    undecodable one. *)
Lemma deliver_all_prefix cb msgs w c :
  handler w = Some cb → _client (self w) = Some c →
  cl_suppress_exceptions c = false → wf w →
  let w' := deliver_all msgs w in
  device_state w' = merge_payloads (device_state w) (decodable_prefix msgs) ∧
  match decodable_prefix msgs with
  | [] => same_device w w'
  | _ :: _ =>
      ∃ l, _device (self w') = Some l ∧
           device w' = match cb with new_update => Some l | Fn _ => device w end
  end.
Proof.
  intros Hh Hc Hsup Hwf.
  destruct (decodable_prefix_split msgs) as (rest & Hsplit & Hrest).
  set (ps := decodable_prefix msgs) in *. cbv zeta.
  rewrite Hsplit, deliver_all_app.
  destruct (deliver_all_json cb ps w Hh Hwf) as (Hh1 & Hwf1 & Hs1 & Hst1 & Hne).
  set (w1 := deliver_all (Json <$> ps) w) in *.
  assert (Hsd : same_device w1 (deliver_all rest w1)).
  { destruct Hrest as [->|(raw & r & ->)]; [done|].
    change (deliver_all (Malformed raw :: r) w1)
      with (deliver_all r (deliver (Malformed raw) w1)).
    assert (Hc1 : _client (self w1) = Some c)
      by (destruct Hs1 as (_ & -> & _); done).
    destruct (deliver_malformed cb raw w1 c Hh1 Hc1 Hsup) as (Hn & Hsd & _).
    by rewrite deliver_all_no_handler. }
  split; [by rewrite (same_device_state _ _ Hsd)|].
  destruct ps as [|data ps]; [exact Hsd|].
  destruct Hsd as (Hd & _ & Hl).
  destruct Hne as (l & Hd1 & _ & Hl1); [done|].
  exists l. by rewrite Hd, Hl.
Qed.

(** C5: once connected, [get_device] returns only when the whole wait of 5
    time units is over, whatever arrived meanwhile.  When no delivery thread
    was running before the call and the broker accepts the session, it
    returns the device as the last message handled before the disconnect
    left it (the merge of the messages handled during the wait), [None] if
    none was handled; and when exactly one message arrives during the wait
    and decodes, it returns the state that message results in. *)
Theorem get_device_waits_then_returns_last w :
  reachable w = true →
  now (get_device w).2 = now w + 5 ∧
  (connack w = 0%Z → threads_running w = false → wf w →
   match decodable_prefix (due 5 w) with
   | [] => (get_device w).1 = Ok None
   | _ :: _ =>
       ∃ l, (get_device w).1 = Ok (Some l) ∧
            _device (self (get_device w).2) = Some l ∧
            heap (get_device w).2 !! l
            = merge_payloads (device_state w) (decodable_prefix (due 5 w))
   end ∧
   (∀ data, due 5 w = [Json data] →
      ∃ l, (get_device w).1 = Ok (Some l) ∧
           heap (get_device w).2 !! l
           = Some (merge_payload (device_state w) data))).
Proof.
  intros Hr.
  destruct (get_device_unfold w Hr) as (w' & -> & (Hd & Hh & Hl) & Hn & _).
  cbn [fst snd]. split; [exact Hn|]. intros Hrc Hth Hwf.
  destruct (awaiting_spec w Hr) as (Hsd & _).
  destruct (awaiting_alone w Hr Hrc) as (Hha & (c & Hc & Hsup)).
  pose proof (awaiting_orphans w Hr Hth) as Hoa.
  rewrite (arrive_all_no_orphan _ _ Hoa) in Hd, Hh, Hl.
  assert (Hwfa : wf (awaiting w)).
  { destruct Hsd as (Hd' & Hh' & _). unfold wf. rewrite Hd', Hh'.
    clear -Hwf. by open_world w. }
  assert (Hsta : device_state (awaiting w) = device_state w).
  { rewrite (same_device_state _ _ Hsd). clear. by open_world w. }
  assert (Hloc : device (awaiting w) = None).
  { destruct Hsd as (_ & _ & ->). clear. by open_world w. }
  remember (awaiting w) as wa eqn:Hwa. clear Hwa Hsd Hoa.
  destruct (deliver_all_prefix _ (due 5 w) _ _ Hha Hc Hsup Hwfa) as [Hst Hm].
  cbv zeta in Hst, Hm. rewrite Hsta in Hst.
  remember (deliver_all (due 5 w) wa) as w2 eqn:Hw2. clear Hw2.
  assert (Hmain :
    match decodable_prefix (due 5 w) with
    | [] => Ok (A:=option loc) (device w') = Ok None
    | _ :: _ =>
        ∃ l, Ok (device w') = Ok (Some l) ∧ _device (self w') = Some l ∧
             heap w' !! l
             = merge_payloads (device_state w) (decodable_prefix (due 5 w))
    end).
  { destruct (decodable_prefix (due 5 w)) as [|data ps] eqn:Hp.
    - destruct Hm as (_ & _ & Hl2). by rewrite Hl, Hl2, Hloc.
    - destruct Hm as (l & Hd2 & Hl2). exists l.
      rewrite Hl, Hl2, Hd, Hd2, Hh. split; [done|]. split; [done|].
      rewrite <- Hst. unfold device_state. by rewrite Hd2. }
  split; [exact Hmain|].
  intros data Hdue. rewrite Hdue in Hmain. cbn in Hmain.
  destruct Hmain as (l & ? & _ & ?). by exists l.
Qed.

End Properties.

(** ** The merge of the spec's device model *)

Section SpecModel.
Context {U : Type}.
Implicit Types (w : World (gmap string value) U) (cb : Callback U).
Implicit Types (ps : list (gmap string value)) (data m : gmap string value).

Lemma last_write_nil k v : ¬ last_write [] k v.
Proof. by intros (i & p & Hi & _). Qed.

Lemma last_write_snoc ps data k v :
  last_write (ps ++ [data]) k v ↔
  data !! k = Some v ∨ (data !! k = None ∧ last_write ps k v).
Proof.
  split.
  - intros (i & p & Hi & Hp & Hlater).
    destruct (decide (i < length ps)) as [Hlt|Hge].
    + right. rewrite lookup_app_l in Hi by done. split.
      * apply (Hlater (length ps)); [done|].
        by rewrite lookup_app_r, Nat.sub_diag by done.
      * exists i, p. split; [done|]. split; [done|].
        intros j q Hij Hj. apply (Hlater j q Hij).
        rewrite lookup_app_l; [done|]. by eapply lookup_lt_Some.
    + left. rewrite lookup_app_r in Hi by lia.
      destruct (i - length ps) as [|n] eqn:Hn; [|done].
      cbn in Hi. by injection Hi as ->.
  - intros [Hd|[Hd (i & p & Hi & Hp & Hlater)]].
    + exists (length ps), data.
      split; [by rewrite lookup_app_r, Nat.sub_diag by done|].
      split; [done|]. intros j q Hij Hj.
      apply lookup_lt_Some in Hj. rewrite length_app in Hj. cbn in Hj. lia.
    + exists i, p. pose proof (lookup_lt_Some _ _ _ Hi) as Hlt.
      split; [by rewrite lookup_app_l|]. split; [done|].
      intros j q Hij Hj.
      destruct (decide (j < length ps)) as [Hjlt|Hjge].
      * rewrite lookup_app_l in Hj by done. by eapply Hlater.
      * rewrite lookup_app_r in Hj by lia.
        destruct (j - length ps) as [|n]; [|done].
        cbn in Hj. by injection Hj as <-.
Qed.

Lemma merge_payloads_snoc (st : option (gmap string value)) ps data :
  merge_payloads st (ps ++ [data])
  = Some (merge_payload (merge_payloads st ps) data).
Proof. unfold merge_payloads. by rewrite foldl_app. Qed.

(** The merge of a sequence of payloads, field by field. *)
Lemma spec_merge_payloads ps :
  (ps ≠ [] → is_Some (merge_payloads (D:=gmap string value) None ps)) ∧
  (∀ m, merge_payloads None ps = Some m →
        dom m = ⋃ (dom <$> ps) ∧ ∀ k v, m !! k = Some v ↔ last_write ps k v).
Proof.
  induction ps as [|data ps [IH1 IH2]] using rev_ind.
  { split; [done|]. by intros m. }
  rewrite merge_payloads_snoc. split; [by eexists|].
  intros m [= <-].
  destruct (merge_payloads None ps) as [m'|] eqn:Hm'.
  - destruct (IH2 m' eq_refl) as [Hdom Hlw]. cbn. unfold spec_update_from_dict.
    split.
    + rewrite dom_union_L, Hdom, fmap_app, union_list_app_L. cbn.
      rewrite (right_id_L ∅ (∪)). apply (comm_L (∪)).
    + intros k v. rewrite last_write_snoc, lookup_union_Some_raw, Hlw. done.
  - assert (ps = []) as ->.
    { destruct ps as [|p ps]; [done|]. by destruct IH1. }
    cbn. unfold spec_update_from_dict, spec_Device.
    rewrite (idemp (∪) data). split; [cbn; by rewrite (right_id_L ∅ (∪))|].
    intros k v. pose proof (last_write_snoc [] data k v) as Hs.
    cbn in Hs. rewrite Hs, lookup_union_Some_raw.
    split; (intros [?|[Hnone Hn]]; [by left|]).
    + congruence.
    + by apply last_write_nil in Hn.
Qed.

(** C1: when the decodable payloads P1..Pn (n at least 1) are delivered to
    a subscription whose device state is absent, the fields of the resulting
    state are the union of the fields of all Pi and each field has the value
    of the last Pi that mentions it; and a merge into a present state deletes
    no field: it overwrites the fields of the update and leaves the others as
    they were. *)
Theorem merge_is_last_write_wins cb :
  (∀ w ps,
     handler w = Some cb → _device (self w) = None → ps ≠ [] →
     ∃ m, device_state (deliver_all (Json <$> ps) w) = Some m ∧
          dom m = ⋃ (dom <$> ps) ∧
          ∀ k v, m !! k = Some v ↔ last_write ps k v) ∧
  (∀ w m data,
     handler w = Some cb → device_state w = Some m →
     ∃ m', device_state (deliver (Json data) w) = Some m' ∧
           dom m ⊆ dom m' ∧
           (∀ k v, data !! k = Some v → m' !! k = Some v) ∧
           (∀ k, data !! k = None → m' !! k = m !! k)).
Proof.
  split.
  - intros w ps Hh Hd Hne.
    assert (Hwf : wf w) by (unfold wf; by rewrite Hd).
    destruct (deliver_all_json cb ps w Hh Hwf) as (_ & _ & _ & Hst & _).
    assert (Hst0 : device_state w = None)
      by (unfold device_state; by rewrite Hd).
    rewrite Hst0 in Hst.
    destruct (spec_merge_payloads ps) as [Hsome Hspec].
    destruct (Hsome Hne) as [m Hm]. exists m.
    split; [by rewrite Hst|]. by apply Hspec.
  - intros w m data Hh Hst.
    assert (Hwf : wf w).
    { unfold wf. unfold device_state in Hst.
      destruct (_device (self w)); [by rewrite Hst|done]. }
    destruct (deliver_json cb data w Hh Hwf) as (l & Hd & _ & Hl & _).
    cbv zeta in Hd, Hl. rewrite Hst in Hl. cbn in Hl.
    exists (spec_update_from_dict data m).
    split; [unfold device_state; by rewrite Hd|].
    unfold spec_update_from_dict. split; [|split].
    + rewrite dom_union_L. set_solver.
    + intros k v Hk. by apply lookup_union_Some_l.
    + intros k Hk. by apply lookup_union_r.
Qed.

End SpecModel.

(** * The claims on sample worlds *)

(** The example of the spec: [{temp: 20}], then [{fan: on}], then
    [{temp: 25}] leave [{temp: 25, fan: on}]. *)
Example spec_example :
  device_state (deliver_all [Json temp20; Json fan_on; Json temp25]
                            listening_world)
  = Some (<["temp" := VInt 25]> (<["fan" := VStr "on"]> ∅)).
Proof. vm_compute. reflexivity. Qed.

Lemma merge_is_last_write_wins_witness :
  handler listening_world = Some ignore ∧
  _device (self listening_world) = None ∧
  [temp20; fan_on; temp25] ≠ [] ∧
  ∃ m, device_state (deliver_all (Json <$> [temp20; fan_on; temp25])
                                 listening_world) = Some m ∧
       dom m = ⋃ (dom <$> [temp20; fan_on; temp25]) ∧
       ∀ k v, m !! k = Some v ↔ last_write [temp20; fan_on; temp25] k v.
Proof.
  split; [reflexivity|]. split; [reflexivity|]. split; [discriminate|].
  apply (proj1 (merge_is_last_write_wins ignore));
    [reflexivity|reflexivity|discriminate].
Defined.

(** C2, as stated, fails: after the failed [connect] on a new aggregator
    [self] is not what it was, its client field being no longer [None]. *)
Lemma connect_unreachable_changes_self :
  (∃ e, (connect down_world).1 = Raise e) ∧
  _client (self down_world) = None ∧
  _client (self (connect down_world).2) = Some unconnected_client ∧
  self (connect down_world).2 ≠ self down_world.
Proof.
  split; [eexists; reflexivity|]. split; [reflexivity|].
  split; [reflexivity|].
  intros Heq. apply (f_equal _client) in Heq. discriminate Heq.
Qed.

Lemma connect_unreachable_keeps_new_client_witness :
  reachable down_world = false ∧
  ∃ e w', connect down_world = (Raise e, w') ∧
        host (self w') = host (self down_world) ∧
        _close_session (self w') = _close_session (self down_world) ∧
        same_device down_world w' ∧
        _client (self w') = Some unconnected_client ∧
        loop_running w' = false.
Proof.
  split; [reflexivity|].
  apply (connect_unreachable_keeps_new_client down_world). reflexivity.
Defined.

(** C3, as stated, fails: the handler of a subscription raises the decode
    error of an undecodable payload to the delivery loop that called it. *)
Lemma malformed_payload_propagates :
  handler listening_world = Some ignore ∧
  (on_message ignore (Malformed "not json") listening_world).1
  = Raise (JSONDecodeError "not json").
Proof. split; reflexivity. Qed.

(** With the client [connect] creates, the delivery thread ends at the
    undecodable payload: the payload after it is not merged. *)
Example delivery_ends_at_malformed :
  let w := deliver_all [Json temp20; Malformed "not json"; Json fan_on]
                       listening_world in
  device_state w = Some temp20 ∧ loop_running w = false.
Proof. split; vm_compute; reflexivity. Qed.

Lemma get_device_without_messages_witness :
  (∀ m, m ∈ inbox quiet_world → now quiet_world + 5 ≤ m.1) ∧
  (get_device quiet_world).1 = Ok None.
Proof.
  assert (Hin : ∀ m, m ∈ inbox quiet_world → now quiet_world + 5 ≤ m.1).
  { intros m Hm. apply list_elem_of_singleton in Hm. subst m. cbn. lia. }
  split; [exact Hin|].
  apply (proj1 (get_device_without_messages quiet_world Hin)). reflexivity.
Defined.

Lemma get_device_waits_then_returns_last_witness :
  reachable one_message_world = true ∧ connack one_message_world = 0%Z ∧
  threads_running one_message_world = false ∧ wf one_message_world ∧
  now (get_device one_message_world).2 = now one_message_world + 5 ∧
  ∃ l, (get_device one_message_world).1 = Ok (Some l) ∧
       heap (get_device one_message_world).2 !! l
       = Some (merge_payload (device_state one_message_world)
                             {[ "temp" := VInt 20 ]}).
Proof.
  split; [reflexivity|]. split; [reflexivity|]. split; [reflexivity|].
  split; [exact I|].
  destruct (get_device_waits_then_returns_last one_message_world eq_refl)
    as (Hnow & Hrest).
  destruct (Hrest eq_refl eq_refl I) as (_ & Hone).
  split; [exact Hnow|]. apply Hone. reflexivity.
Defined.

Lemma disconnect_without_connect_witness :
  _client (self down_world) = None ∧
  ∃ w', disconnect down_world = (Ok tt, w') ∧
        self w' = self down_world ∧ heap w' = heap down_world ∧
        trace w' = trace down_world ++
          [EvLog "Cannot disconnect from MQTT Server, as no client connection exists"] ∧
        loop_running w' = false.
Proof.
  split; [reflexivity|].
  apply (disconnect_without_connect down_world). reflexivity.
Defined.


Lemma subscribe_without_connect_witness :
  _client (self down_world) = None ∧
  ∃ w', subscribe ignore down_world = (Raise (AttributeError "on_message"), w') ∧
        self w' = self down_world ∧ handler w' = None.
Proof.
  split; [reflexivity|].
  apply (subscribe_without_connect ignore down_world). reflexivity.
Defined.

Lemma disconnect_keeps_device_for_reconnect_witness :
  let w := deliver (Json temp20) listening_world in
  device_state w = Some temp20 ∧ reachable w = true ∧
  device_state (disconnect w).2 = Some temp20 ∧
  device_state (deliver (Json fan_on)
                  (subscribe ignore (connect (disconnect w).2).2).2)
  = Some (update_from_dict fan_on temp20).
Proof.
  intros w. split; [vm_compute; reflexivity|]. split; [reflexivity|].
  apply (proj2 disconnect_keeps_device_for_reconnect w temp20 ignore fan_on);
    vm_compute; reflexivity.
Defined.

Lemma first_message_decoded_and_applied_twice_witness :
  _device (self listening_world) = None ∧
  ∃ w' l, on_message ignore (Json temp20) listening_world = (Ok tt, w') ∧
          _device (self w') = Some l ∧
          heap w' !! l = Some (update_from_dict temp20 (Device temp20)) ∧
          device_state w' = Some (update_from_dict temp20 (Device temp20)) ∧
          trace w' = trace listening_world ++
            [EvLog "Subscribe received message"; EvDecode (Json temp20);
             EvDecode (Json temp20); EvLog "Device Update"] ++ [].
Proof.
  split; [reflexivity|].
  apply (first_message_decoded_and_applied_twice ignore temp20 listening_world).
  reflexivity.
Defined.

(** With a device model that counts its updates, the first message leaves a
    device that was updated once, where the constructor alone leaves one
    that was never updated. *)
Example first_message_counts_one_update :
  device_state
    (@on_message nat count_model unit ignore (Json temp20)
                 (fresh_world true [])).2 = Some 1 ∧
  @Device nat count_model temp20 = 0.
Proof. split; reflexivity. Qed.

(** * The life cycle beyond the claims *)

Section LifeCycle.
Context {D : Type} `{!DeviceModel D} {U : Type}.
Implicit Types (w : World D U) (cb : Callback U) (data : gmap string value).
Implicit Types (msg : payload) (l : loc) (c : Client U).

Lemma loop_off_no_handler w : loop_running w = false → handler w = None.
Proof.
  unfold loop_running, handler. destruct (_client (self w)) as [c|]; [|done].
  intros ->. by rewrite andb_false_r.
Qed.

Lemma no_thread_no_arrival msgs w :
  threads_running w = false → arrive_all msgs w = w.
Proof.
  intros [Hl Ho]%orb_false_elim. rewrite (arrive_all_no_orphan _ _ Ho).
  by apply deliver_all_no_handler, loop_off_no_handler.
Qed.

(** X1: on a reachable broker [connect] returns the client it created and
    rebinds [self._client] to it: connected, its delivery thread running,
    without handler and without subscription.  The client that was there
    before is not stopped: it goes on as it was, no longer referred to.
    The device is untouched; and when no delivery thread ran before the
    call, no message that arrives before [subscribe] changes anything. *)
Theorem connect_installs_new_client w :
  reachable w = true →
  ∃ w', connect w = (Ok connected_client, w') ∧
        _client (self w') = Some connected_client ∧
        orphans w' = match _client (self w) with
                     | Some old => old :: orphans w
                     | None => orphans w
                     end ∧
        loop_running w' = true ∧ handler w' = None ∧
        host (self w') = host (self w) ∧ same_device w w' ∧
        (threads_running w = false → ∀ msgs, arrive_all msgs w' = w').
Proof.
  intros Hr. rewrite (connect_reachable _ Hr). eexists. split; [done|].
  do 6 (split; [by open_world w|]).
  intros [Hl Ho]%orb_false_elim msgs.
  assert (Ho' : existsb cl_loop
            (match _client (self w) with
             | Some old => old :: orphans w | None => orphans w end) = false).
  { unfold loop_running in Hl. destruct (_client (self w)); [|done].
    cbn. by rewrite Hl. }
  rewrite arrive_all_no_orphan by (by open_world w).
  apply deliver_all_no_handler. clear. by open_world w.
Qed.


(** X3: on a connected client with a running delivery thread, [subscribe]
    returns normally and from then on messages reach the callback it was
    given, also when another callback was subscribed before; the topic is
    appended to the subscriptions once more, and the device is untouched. *)
Theorem subscribe_replaces_callback cb w c :
  _client (self w) = Some c → cl_connected c = true → cl_loop c = true →
  ∃ w' c', subscribe cb w = (Ok tt, w') ∧ handler w' = Some cb ∧
           _client (self w') = Some c' ∧
           cl_subscriptions c' = cl_subscriptions c ++ ["device/#"] ∧
           same_device w w'.
Proof.
  intros Hc Hcon Hloop. rewrite (subscribe_client _ _ _ Hc).
  eexists _, _. split; [done|]. split.
  - unfold handler. open_world w. destruct c. cbn in *. subst.
    rewrite bool_decide_eq_true_2; [done|]. set_solver.
  - split; [by open_world w|]. split; [by destruct c|]. by open_world w.
Qed.

Lemma disconnect_threads w :
  (disconnect w).1 = Ok tt ∧ loop_running (disconnect w).2 = false ∧
  same_device w (disconnect w).2 ∧
  (existsb cl_loop (orphans w) = false →
   threads_running (disconnect w).2 = false).
Proof.
  assert (Ho : orphans (disconnect w).2 = orphans w).
  { destruct (_client (self w)) as [c|] eqn:Hc.
    - rewrite (disconnect_client _ _ Hc). by open_world w.
    - rewrite (disconnect_no_client _ Hc). by open_world w. }
  destruct (disconnect_spec w) as (w' & Heq & Hsd & _ & _ & Hl).
  rewrite Heq in *. cbn [fst snd] in *.
  split; [done|]. split; [done|]. split; [done|]. intros Hq.
  unfold threads_running. by rewrite Hl, Ho, Hq.
Qed.

(** X4: whatever the state of the aggregator, [disconnect] returns
    without raising and the delivery thread of the client in
    [self._client] does not run afterwards.  When no client that an earlier
    [connect] replaced still has its thread, no delivery thread runs at all
    afterwards and no message that arrives changes anything. *)
Theorem disconnect_stops_delivery w :
  (disconnect w).1 = Ok tt ∧ loop_running (disconnect w).2 = false ∧
  (existsb cl_loop (orphans w) = false →
   threads_running (disconnect w).2 = false ∧
   ∀ msgs, arrive_all msgs (disconnect w).2 = (disconnect w).2).
Proof.
  destruct (disconnect_threads w) as (Hok & Hl & _ & Ht).
  split; [done|]. split; [done|]. intros Hq.
  split; [by apply Ht|]. intros msgs. by apply no_thread_no_arrival, Ht.
Qed.

(** X5: once a client exists, [subscribe] after [disconnect] does not
    raise, as the client is still in [self._client]; but the client is
    closed, so no message reaches the callback. *)
Theorem subscribe_after_disconnect cb w msgs :
  is_Some (_client (self w)) →
  let w' := (subscribe cb (disconnect w).2).2 in
  (subscribe cb (disconnect w).2).1 = Ok tt ∧ handler w' = None ∧
  deliver_all msgs w' = w'.
Proof.
  intros [c Hc]. cbv zeta. rewrite (disconnect_client _ _ Hc). cbn [snd].
  erewrite subscribe_client by by open_world w.
  assert (Hh : ∀ w0 : World D U, handler
    (add_trace [EvLog "Subscribing "; EvSubscribe "device/#"]
       (set_self (with_client (Some (upd_subscribe "device/#"
          (upd_on_message cb (upd_connected false (upd_loop false c)))))) w0))
    = None) by (intros w0; by open_world w0).
  split; [done|]. split; [apply Hh|]. apply deliver_all_no_handler, Hh.
Qed.

(** X6: once a client exists, a second [disconnect] does not take the
    no-client branch: it stops the loop and closes the connection again,
    and leaves the aggregator as the first one left it. *)
Theorem disconnect_twice w :
  is_Some (_client (self w)) →
  let w1 := (disconnect w).2 in
  let w2 := (disconnect w1).2 in
  (disconnect w1).1 = Ok tt ∧ self w2 = self w1 ∧ heap w2 = heap w1 ∧
  trace w2 = trace w1 ++ [EvLog "Disconnecting...."; EvLoopStop;
                          EvDisconnect; EvLog "Disconnected"].
Proof.
  intros [c Hc]. cbv zeta. rewrite (disconnect_client _ _ Hc). cbn [snd].
  erewrite disconnect_client by by open_world w.
  open_world w. destruct c. done.
Qed.

(** X7: the context manager: [__aenter__] returns [self] and does nothing
    else, in particular it does not connect; [__aexit__] never raises, keeps
    the device, and stops the delivery thread of the client in
    [self._client], which leaves no delivery thread at all when no client
    that an earlier [connect] replaced still has its own. *)
Theorem context_manager w :
  __aenter__ w = (Ok (self w), w) ∧
  (__aexit__ w).1 = Ok tt ∧ loop_running (__aexit__ w).2 = false ∧
  same_device w (__aexit__ w).2 ∧
  (existsb cl_loop (orphans w) = false →
   threads_running (__aexit__ w).2 = false).
Proof.
  split; [done|]. unfold __aexit__. apply disconnect_threads.
Qed.

(** X8: on an unreachable broker [get_device] raises the error of
    [connect] at once: it does not wait (the clock has not moved and nothing
    was slept), it does not disconnect, and it leaves in [self._client] the
    client of the failed attempt; the device is untouched. *)
Theorem get_device_unreachable_fails_at_once w :
  reachable w = false →
  (get_device w).1 = Raise (OSError (host (self w)) 1883) ∧
  now (get_device w).2 = now w ∧
  trace (get_device w).2
  = trace w ++ [EvLog ("Connecting MQTT Server on: " +:+ host (self w));
                EvNewClient; EvConnect (host (self w)) 1883] ∧
  _client (self (get_device w).2) = Some unconnected_client ∧
  _device (self (get_device w).2) = _device (self w) ∧
  heap (get_device w).2 = heap w.
Proof.
  intros Hr. rewrite (get_device_unreachable _ Hr).
  rewrite connect_unreachable by by open_world w. by open_world w.
Qed.

(** X9: what [get_device] returns is its own local, not [self._device]:
    when no message arrives during the wait it returns [None] even if the
    aggregator holds a device state from before, and that state is kept. *)
Theorem get_device_none_keeps_state w :
  reachable w = true → (∀ m, m ∈ inbox w → now w + 5 ≤ m.1) →
  (get_device w).1 = Ok None ∧
  _device (self (get_device w).2) = _device (self w) ∧
  heap (get_device w).2 = heap w ∧
  device_state (get_device w).2 = device_state w.
Proof.
  intros Hr Hin.
  destruct (get_device_unfold w Hr) as (w' & -> & Hsd & _).
  rewrite (due_nil _ _ Hin), arrive_all_nil in Hsd.
  destruct (awaiting_spec w Hr) as (Hsd0 & _).
  destruct Hsd as (Hd & Hh & Hl), Hsd0 as (Hd0 & Hh0 & Hl0).
  cbn [fst snd]. unfold device_state.
  rewrite Hl, Hl0, Hd, Hd0, Hh, Hh0. by open_world w.
Qed.

(** X10: when no delivery thread ran before the call, after a
    [get_device] that connected none runs either, and no message that
    arrives later changes anything: the state it returned is final until
    the next connect. *)
Theorem get_device_leaves_disconnected w :
  reachable w = true → threads_running w = false →
  threads_running (get_device w).2 = false ∧
  ∀ msgs, arrive_all msgs (get_device w).2 = (get_device w).2.
Proof.
  intros Hr Hth.
  destruct (get_device_unfold w Hr) as (w' & -> & _ & _ & Hl & Ho).
  pose proof (awaiting_orphans w Hr Hth) as Hoa.
  rewrite (arrive_all_no_orphan _ _ Hoa), deliver_all_orphans in Ho.
  cbn [snd].
  assert (Ht : threads_running w' = false)
    by (unfold threads_running; by rewrite Hl, Ho, Hoa).
  split; [done|]. intros msgs. by apply no_thread_no_arrival.
Qed.

(** X11: on a message that finds the device present the payload is decoded
    once, the object is updated in place (the reference in [self._device]
    is the same, the object behind it is the update of the old one), and
    the callback is handed that reference. *)
Theorem later_message_updates_in_place cb data w l :
  _device (self w) = Some l →
  ∃ w', on_message cb (Json data) w = (Ok tt, w') ∧
        _device (self w') = Some l ∧
        heap w' = alter (update_from_dict data) l (heap w) ∧
        trace w' = trace w ++
          [EvLog "Subscribe received message"; EvDecode (Json data);
           EvLog "Device Update"] ++
          match cb with
          | Fn f => (f l (user w)).1
          | new_update => [EvLogObj "new update " l]
          end.
Proof.
  intros Hd. rewrite (on_message_present _ _ _ l Hd).
  match goal with |- context [call cb ?l ?x] =>
    destruct (call_spec cb l x) as (w' & -> & Hs & Hh & _ & _ & _ & _ & _ & Ht) end.
  exists w'. split; [done|]. rewrite Hs, Hh, Ht.
  open_world w. cbn in *. by rewrite <- app_assoc.
Qed.

Lemma device_ref_same w w' :
  _device (self w') = _device (self w) → heap w' = heap w →
  device_ref w' = device_ref w.
Proof. unfold device_ref. by intros -> ->. Qed.

Lemma frame_trans w1 w2 w3 : frame w1 w2 → frame w2 w3 → frame w1 w3.
Proof.
  intros (Hh & Hc & Hd & Hr & Ho) (Hh' & Hc' & Hd' & Hr' & Ho').
  split; [congruence|]. split; [congruence|]. split; [auto|].
  split; [congruence|]. intros l Hl. rewrite Ho', Ho; congruence.
Qed.

Lemma frame_same w w' :
  host (self w') = host (self w) →
  _close_session (self w') = _close_session (self w) →
  _device (self w') = _device (self w) → heap w' = heap w → frame w w'.
Proof.
  intros Hh Hc Hd Ho. split; [done|]. split; [done|].
  split; [by intros l; rewrite Hd|].
  split; [by apply device_ref_same|]. intros l _. by rewrite Ho.
Qed.

Lemma frame_on_message cb msg w : frame w (on_message cb msg w).2.
Proof.
  destruct msg as [data|raw].
  - destruct (_device (self w)) as [l|] eqn:Hd.
    + rewrite (on_message_present _ _ _ l Hd).
      match goal with |- context [call cb l ?x] =>
        destruct (call_spec cb l x) as (w' & -> & Hs & Hh & _) end.
      unfold frame, device_ref. cbn [snd]. rewrite Hs, Hh, Hd.
      open_world w. cbn in *. subst.
      do 4 (split; [done|]). intros l' Hl'. by rewrite lookup_alter_ne.
    + rewrite (on_message_absent _ _ _ Hd).
      match goal with |- context [call cb ?l ?x] =>
        destruct (call_spec cb l x) as (w' & -> & Hs & Hh & _) end.
      unfold frame, device_ref. cbn [snd]. rewrite Hs, Hh, Hd.
      open_world w. cbn in *. subst.
      do 4 (split; [done|]). intros l' Hl'. by rewrite lookup_insert_ne.
  - rewrite on_message_malformed. apply frame_same; by open_world w.
Qed.

Lemma keeps_wf_same w w' :
  host (self w') = host (self w) →
  _close_session (self w') = _close_session (self w) →
  _device (self w') = _device (self w) → heap w' = heap w → keeps_wf w w'.
Proof. intros _ _ Hd Ho. unfold keeps_wf, wf. by rewrite Hd, Ho. Qed.

Lemma keeps_wf_on_message cb msg w : keeps_wf w (on_message cb msg w).2.
Proof.
  intros Hwf. destruct msg as [data|raw].
  - destruct (on_message_json cb data w Hwf) as (w' & l & -> & Hd & _ & Hl & _).
    unfold wf. cbn [snd]. by rewrite Hd, Hl.
  - rewrite on_message_malformed. by open_world w.
Qed.

(** X12: no operation of the aggregator, and no delivery, changes the host
    or the close-session flag. *)
Theorem configuration_never_changes (o : op U) w :
  host (self (exec o w)) = host (self w) ∧
  _close_session (self (exec o w)) = _close_session (self w).
Proof.
  destruct (exec_kept frame frame_trans frame_same frame_on_message o w)
    as (? & ? & _). done.
Qed.

(** X13: the device object is created once and then updated in place: no
    operation puts another reference into [self._device] once it is set,
    and no operation touches an object of the store other than the
    device's. *)
Theorem device_object_never_replaced (o : op U) w :
  (∀ l, _device (self w) = Some l → _device (self (exec o w)) = Some l) ∧
  (∀ l, l ≠ device_ref w → heap (exec o w) !! l = heap w !! l).
Proof.
  destruct (exec_kept frame frame_trans frame_same frame_on_message o w)
    as (_ & _ & ? & _ & ?). done.
Qed.

(** X14: every operation keeps the store well formed: where
    [self._device] is set, the object it points to exists. *)
Theorem exec_keeps_wf (o : op U) w : wf w → wf (exec o w).
Proof.
  apply (exec_kept keeps_wf); [|apply keeps_wf_same|apply keeps_wf_on_message].
  unfold keeps_wf. auto.
Qed.



Lemma serve_json c cb data w :
  cl_connected c = true → cl_loop c = true →
  "device/#" ∈ cl_subscriptions c → cl_on_message c = Some cb →
  serve c (Json data) w = (c, (on_message cb (Json data) w).2).
Proof.
  intros Hcon Hloop Hsub Hcb. unfold serve.
  rewrite Hcon, Hloop, (bool_decide_eq_true_2 _ Hsub), Hcb.
  destruct (on_message_json_frame cb data w w eq_refl eq_refl) as [Hok _].
  destruct (on_message cb (Json data) w) as [[[]|?] w']; cbn in *;
    [reflexivity|discriminate].
Qed.

(** X16: [connect] on an aggregator whose client is connected and
    subscribed does not stop that client.  After the new [connect], and
    even after a [disconnect], which stops the new client only, its
    delivery thread still runs, and a message that arrives is still handed
    to the handler installed on it and merged into [self._device]. *)
Theorem connect_leaks_live_client cb data w :
  handler w = Some cb → existsb cl_loop (orphans w) = false →
  reachable w = true → wf w →
  let w' := (disconnect (connect w).2).2 in
  loop_running w' = false ∧ threads_running w' = true ∧
  device_state (arrive (Json data) w')
  = Some (merge_payload (device_state w) data).
Proof.
  intros Hh Ho Hr Hwf. cbv zeta.
  rewrite (connect_reachable _ Hr). cbn [snd].
  erewrite disconnect_client by (by open_world w). cbn [snd].
  unfold handler in Hh. destruct (_client (self w)) as [c|] eqn:Hc; [|done].
  destruct (cl_connected c) eqn:Hcon; [|done].
  destruct (cl_loop c) eqn:Hloop; [|done]. cbn in Hh.
  case_bool_decide as Hsub; [|done].
  match goal with |- context [arrive _ ?x] => set (w' := x) end.
  assert (Ho' : orphans w' = c :: orphans w).
  { unfold w'. clear -Hc. open_world w. cbn in *. by subst. }
  split; [by clear; open_world w|].
  split.
  { unfold threads_running. rewrite Ho'. cbn [existsb].
    by rewrite Hloop, orb_true_l, orb_true_r. }
  unfold arrive. rewrite Ho'. cbn [serve_each].
  rewrite (serve_json c cb data w' Hcon Hloop Hsub Hh). cbn [fst snd].
  rewrite (serve_each_stopped _ _ _ Ho). cbn [fst snd].
  destruct (on_message_json_frame cb data w' w) as [_ Hst].
  { unfold w'. clear. by open_world w. }
  { unfold w'. clear. by open_world w. }
  destruct (on_message_json cb data w Hwf) as (w1 & l & Hw1 & Hd1 & _ & Hl1 & _).
  rewrite Hw1 in Hst. cbn [snd] in Hst.
  assert (Hst1 : device_state w1 = Some (merge_payload (device_state w) data))
    by (unfold device_state at 1; by rewrite Hd1).
  rewrite Hst1 in Hst.
  assert (Hwf' : wf w') by (unfold wf, w' in *; clear -Hwf; by open_world w).
  destruct (on_message_json cb data w' Hwf')
    as (w2 & l2 & Hw2 & _ & _ & _ & _ & Hss).
  rewrite Hw2 in Hst |- *. cbn [snd] in Hst |- *.
  assert (Hhn : handler w2 = None).
  { rewrite (handler_same_session _ _ Hss). unfold w'. clear.
    by open_world w. }
  rewrite deliver_no_handler.
  - rewrite <- Hst. by destruct w2.
  - rewrite <- Hhn. by destruct w2.
Qed.

End LifeCycle.

(** ** The life cycle on sample worlds *)

Lemma connect_leaks_live_client_witness :
  handler listening_world = Some ignore ∧
  existsb cl_loop (orphans listening_world) = false ∧
  reachable listening_world = true ∧ wf listening_world ∧
  let w' := (disconnect (connect listening_world).2).2 in
  loop_running w' = false ∧ threads_running w' = true ∧
  device_state (arrive (Json temp20) w')
  = Some (merge_payload (device_state listening_world) temp20).
Proof.
  split; [reflexivity|]. split; [reflexivity|]. split; [reflexivity|].
  split; [exact I|].
  apply (connect_leaks_live_client ignore temp20 listening_world);
    [reflexivity|reflexivity|reflexivity|exact I].
Defined.

Lemma connect_installs_new_client_witness :
  let w := fresh_world (D:=gmap string value) true [] in
  reachable w = true ∧ threads_running w = false ∧
  ∃ w', connect w = (Ok connected_client, w') ∧
        arrive_all [Json temp20] w' = w'.
Proof.
  intros w. split; [reflexivity|]. split; [reflexivity|].
  destruct (connect_installs_new_client w eq_refl)
    as (w' & Heq & _ & _ & _ & _ & _ & _ & Hq).
  exists w'. split; [exact Heq|]. apply Hq. reflexivity.
Defined.

Lemma disconnect_stops_delivery_witness :
  existsb cl_loop (orphans listening_world) = false ∧
  threads_running (disconnect listening_world).2 = false.
Proof.
  split; [reflexivity|].
  destruct (disconnect_stops_delivery listening_world) as (_ & _ & Hq).
  exact (proj1 (Hq eq_refl)).
Defined.

Lemma context_manager_witness :
  existsb cl_loop (orphans listening_world) = false ∧
  threads_running (__aexit__ listening_world).2 = false.
Proof.
  split; [reflexivity|].
  destruct (context_manager listening_world) as (_ & _ & _ & _ & Hq).
  exact (Hq eq_refl).
Defined.


Lemma subscribe_replaces_callback_witness :
  _client (self listening_world) ≠ None ∧
  ∃ w' c', subscribe new_update listening_world = (Ok tt, w') ∧
           handler w' = Some new_update ∧
           _client (self w') = Some c' ∧
           cl_subscriptions c' = ["device/#"] ++ ["device/#"] ∧
           same_device listening_world w'.
Proof.
  split; [discriminate|].
  apply (subscribe_replaces_callback new_update listening_world
           (upd_subscribe "device/#" (upd_on_message ignore connected_client)));
    reflexivity.
Defined.

Lemma subscribe_after_disconnect_witness :
  is_Some (_client (self listening_world)) ∧
  (subscribe ignore (disconnect listening_world).2).1 = Ok tt ∧
  handler (subscribe ignore (disconnect listening_world).2).2 = None.
Proof.
  assert (Hc : is_Some (_client (self listening_world))) by (eexists; reflexivity).
  split; [exact Hc|].
  destruct (subscribe_after_disconnect ignore listening_world [] Hc)
    as (H1 & H2 & _).
  split; [exact H1|exact H2].
Defined.

Lemma disconnect_twice_witness :
  is_Some (_client (self listening_world)) ∧
  self (disconnect (disconnect listening_world).2).2
  = self (disconnect listening_world).2.
Proof.
  assert (Hc : is_Some (_client (self listening_world))) by (eexists; reflexivity).
  split; [exact Hc|].
  destruct (disconnect_twice listening_world Hc) as (_ & H2 & _). exact H2.
Defined.

Lemma get_device_unreachable_fails_at_once_witness :
  reachable down_world = false ∧
  (get_device down_world).1 = Raise (OSError "printer" 1883) ∧
  now (get_device down_world).2 = 0.
Proof.
  split; [reflexivity|].
  destruct (get_device_unreachable_fails_at_once down_world eq_refl)
    as (H1 & H2 & _).
  split; [exact H1|exact H2].
Defined.

Lemma get_device_none_keeps_state_witness :
  let w := set_clock 0 [] (deliver (Json temp20) listening_world) in
  reachable w = true ∧ (∀ m, m ∈ inbox w → now w + 5 ≤ m.1) ∧
  device_state w = Some temp20 ∧
  (get_device w).1 = Ok None ∧ device_state (get_device w).2 = Some temp20.
Proof.
  intros w.
  assert (Hin : ∀ m, m ∈ inbox w → now w + 5 ≤ m.1).
  { intros m Hm. by apply not_elem_of_nil in Hm. }
  split; [reflexivity|]. split; [exact Hin|]. split; [reflexivity|].
  destruct (get_device_none_keeps_state w eq_refl Hin) as (H1 & _ & _ & H4).
  split; [exact H1|]. rewrite H4. reflexivity.
Defined.

Lemma get_device_leaves_disconnected_witness :
  reachable one_message_world = true ∧
  threads_running one_message_world = false ∧
  threads_running (get_device one_message_world).2 = false.
Proof.
  split; [reflexivity|]. split; [reflexivity|].
  exact (proj1 (get_device_leaves_disconnected one_message_world
                  eq_refl eq_refl)).
Defined.

Lemma later_message_updates_in_place_witness :
  let w := deliver (Json temp20) listening_world in
  _device (self w) = Some 0 ∧
  ∃ w', on_message ignore (Json fan_on) w = (Ok tt, w') ∧
        _device (self w') = Some 0 ∧
        heap w' = alter (update_from_dict fan_on) 0 (heap w) ∧
        trace w' = trace w ++
          [EvLog "Subscribe received message"; EvDecode (Json fan_on);
           EvLog "Device Update"] ++ [].
Proof.
  intros w. split; [reflexivity|].
  apply (later_message_updates_in_place ignore fan_on w 0). reflexivity.
Defined.

Lemma device_object_never_replaced_witness :
  let w := deliver (Json temp20) listening_world in
  _device (self w) = Some 0 ∧
  _device (self (exec (OpDeliver (Json fan_on)) w)) = Some 0.
Proof.
  intros w. split; [reflexivity|].
  apply (proj1 (device_object_never_replaced (OpDeliver (Json fan_on)) w)).
  reflexivity.
Defined.

Lemma exec_keeps_wf_witness :
  wf listening_world ∧ wf (exec (OpDeliver (Json temp20)) listening_world).
Proof.
  split; [exact I|].
  apply (exec_keeps_wf (OpDeliver (Json temp20)) listening_world). exact I.
Defined.

